(** * Replay driver (src/replay.js): a shallow embedding and its properties

    The driver reads a trace file line by line (the [rl.on('line')] handler),
    builds the list of requests, launches the server through the harness and
    replays the requests one at a time, reacting to the harness's [close],
    [communicationError] and [event] signals.

    Layout of the development:
    - [JS]       the JavaScript values the program handles and the few
                 operators it applies to them;
    - [RegExp]   [new RegExp(p, "g")] and [String.prototype.replace] for the
                 patterns made of literal characters, [.], [^] and [$];
    - [Reader]   lines 75-135: the line handler and the request list;
    - [Replay]   lines 158-221: the signal handlers, the send loop and the
                 shutdown, as the callbacks the event loop runs;
    - [Driver]   [main] as a whole;
    - [Node]     a concrete runtime (JSON texts, files) on which the
                 definitions evaluate;
    - the properties, each claim's theorem under its number.

    Library calls whose result depends on the outside world or on a large
    library ([JSON.parse], the regular expression engine, [fs.readFileSync])
    are parameters of [Reader]; the theorems hold for every choice of them.
    Strings are sequences of code units below 256. *)

From Stdlib Require Import String Ascii List Bool ZArith Lia.
From Stdlib Require Import Floats.PrimFloat.
Import ListNotations.

Local Open Scope string_scope.
Local Open Scope list_scope.
Local Set Warnings "-register-all".

(** ** Exceptions as [option]: [None] is a thrown exception. *)

Definition bind {A B : Type} (m : option A) (k : A -> option B) : option B :=
  match m with
  | Some a => k a
  | None => None
  end.

Notation "x <- m ;; k" := (bind m (fun x => k))
  (at level 61, m at next level, right associativity).

Fixpoint mapM {A B : Type} (f : A -> option B) (l : list A) : option (list B) :=
  match l with
  | [] => Some []
  | a :: l' => b <- f a ;; bs <- mapM f l' ;; Some (b :: bs)
  end.

(** ** JavaScript values *)

Module JS.

(** A value as [JSON.parse] builds it, plus [undefined], which property reads
    produce.  An object keeps its properties in creation order. *)
Inductive value : Type :=
| JUndefined
| JNull
| JBool (b : bool)
| JNum (x : float)
| JStr (s : string)
| JArr (elems : list value)
| JObj (props : list (string * value)).

Fixpoint lookup (k : string) (props : list (string * value)) : value :=
  match props with
  | [] => JUndefined
  | (k', v) :: rest => if String.eqb k k' then v else lookup k rest
  end.

(** [v.k] for the property names this program reads ([command], [arguments],
    [openFiles], [file], [success], ...): none of them is defined on a
    prototype, so only an object's own properties answer.  Reading a property
    of [undefined] or [null] throws a TypeError. *)
Definition get (v : value) (k : string) : option value :=
  match v with
  | JUndefined | JNull => None
  | JObj props => Some (lookup k props)
  | JBool _ | JNum _ | JStr _ | JArr _ => Some JUndefined
  end.

Fixpoint upsert (k : string) (x : value) (props : list (string * value))
  : list (string * value) :=
  match props with
  | [] => [(k, x)]
  | (k', v) :: rest =>
      if String.eqb k k' then (k', x) :: rest else (k', v) :: upsert k x rest
  end.

(** [v.k = x] in sloppy mode on a value whose property [k] was just read: an
    object gets or updates the property; on a primitive the assignment is
    dropped.  (An array would keep [k] beside its elements, where neither
    [JSON.stringify] nor this program reads it.) *)
Definition set (v : value) (k : string) (x : value) : value :=
  match v with
  | JObj props => JObj (upsert k x props)
  | _ => v
  end.

(** ToBoolean. *)
Definition truthy (v : value) : bool :=
  match v with
  | JUndefined | JNull => false
  | JBool b => b
  | JNum x => negb (PrimFloat.is_zero x || PrimFloat.is_nan x)
  | JStr s => negb (String.eqb s "")
  | JArr _ | JObj _ => true
  end.

(** [v === "s"] for a string literal [s]. *)
Definition is_str (v : value) (s : string) : bool :=
  match v with
  | JStr t => String.eqb t s
  | _ => false
  end.

(** [a ?? b]. *)
Definition coalesce (a b : value) : value :=
  match a with
  | JUndefined | JNull => b
  | _ => a
  end.

(** The elements a [for (const x of v)] loop visits; [None] when [v] is not
    iterable (TypeError).  A string is visited one character at a time. *)
Definition for_of (v : value) : option (list value) :=
  match v with
  | JArr elems => Some elems
  | JStr s => Some (map (fun c => JStr (String c "")) (list_ascii_of_string s))
  | _ => None
  end.

(** White space and line terminators, the characters [trim] removes. *)
Definition is_white (c : ascii) : bool :=
  let n := nat_of_ascii c in
  ((9 <=? n) && (n <=? 13) || (n =? 32) || (n =? 160))%nat.

Fixpoint trimStart (s : string) : string :=
  match s with
  | "" => ""
  | String c s' => if is_white c then trimStart s' else s
  end.

Fixpoint trimEnd (s : string) : string :=
  match s with
  | "" => ""
  | String c s' =>
      let t := trimEnd s' in
      if is_white c && String.eqb t "" then "" else String c t
  end.

Definition trim (s : string) : string := trimEnd (trimStart s).

End JS.
Export JS.

(** ** Regular expressions: [line.replace(new RegExp(p, "g"), d)]

    The pattern language is modelled on the fragment without grouping,
    classes, repetition and escapes: a pattern character that is not a
    syntax character stands for itself, [.] stands for any character except
    a line terminator, and [^] and [$] hold at the start and at the end of
    the text (the [m] flag is not set).  [compile] answers [None] on every
    other pattern: on the ill-formed ones, for which the constructor throws
    a SyntaxError, and on the well-formed ones that are not modelled. *)

Module RegExp.

Inductive atom : Type :=
| Chr (c : ascii)
| AnyChar
| Bol
| Eol.

Fixpoint mem_ascii (c : ascii) (s : string) : bool :=
  match s with
  | "" => false
  | String d s' => Ascii.eqb c d || mem_ascii c s'
  end.

(** SyntaxCharacter of the pattern grammar. *)
Definition syntax_character (c : ascii) : bool :=
  mem_ascii c "^$\.*+?()[]{}|".

Definition is_line_terminator (c : ascii) : bool :=
  let n := nat_of_ascii c in ((n =? 10) || (n =? 13))%nat.

Fixpoint compile (pattern : string) : option (list atom) :=
  match pattern with
  | "" => Some []
  | String c p' =>
      if Ascii.eqb c "."%char then
        re <- compile p' ;; Some (AnyChar :: re)
      else if Ascii.eqb c "^"%char then
        re <- compile p' ;; Some (Bol :: re)
      else if Ascii.eqb c "$"%char then
        re <- compile p' ;; Some (Eol :: re)
      else if syntax_character c then None
      else re <- compile p' ;; Some (Chr c :: re)
  end.

(** The match of [re] at a position of the text: [s] is the text from that
    position on and [at_start] tells whether the position is the first.
    The answer is the matched text and what follows it. *)
Fixpoint match_here (re : list atom) (at_start : bool) (s : string)
  : option (string * string) :=
  match re with
  | [] => Some ("", s)
  | Bol :: re' => if at_start then match_here re' at_start s else None
  | Eol :: re' =>
      match s with
      | "" => match_here re' at_start s
      | String _ _ => None
      end
  | Chr d :: re' =>
      match s with
      | "" => None
      | String c s' =>
          if Ascii.eqb c d then
            match match_here re' false s' with
            | Some (m, rest) => Some (String c m, rest)
            | None => None
            end
          else None
      end
  | AnyChar :: re' =>
      match s with
      | "" => None
      | String c s' =>
          if negb (is_line_terminator c) then
            match match_here re' false s' with
            | Some (m, rest) => Some (String c m, rest)
            | None => None
            end
          else None
      end
  end.

(** GetSubstitution for a pattern without capture groups: [$$] is a dollar,
    [$&] the matched text, [$`] the text before the match and [$'] the text
    after it; any other [$] stands for itself. *)
Fixpoint GetSubstitution (matched before after template : string) : string :=
  match template with
  | "" => ""
  | String c t =>
      if Ascii.eqb c "$"%char then
        match t with
        | "" => String c ""
        | String d t' =>
            if Ascii.eqb d "$"%char then
              String "$"%char (GetSubstitution matched before after t')
            else if Ascii.eqb d "&"%char then
              matched ++ GetSubstitution matched before after t'
            else if Ascii.eqb d "`"%char then
              before ++ GetSubstitution matched before after t'
            else if Ascii.eqb d "'"%char then
              after ++ GetSubstitution matched before after t'
            else String c (GetSubstitution matched before after t)
        end
      else String c (GetSubstitution matched before after t)
  end.

(** The global replacement, scanning [s] from the left; [before] is the text
    already passed and [skip] counts the characters of the current match
    still to pass.  Each position is tried in turn, the leftmost match is
    replaced, and the scan resumes after it; after an empty match it
    advances by one character, which is copied. *)
Fixpoint replace_from (re : list atom) (template before s : string) (skip : nat)
  {struct s} : string :=
  match skip with
  | S k =>
      match s with
      | "" => ""
      | String c s' => replace_from re template (before ++ String c "") s' k
      end
  | O =>
      match match_here re (String.eqb before "") s with
      | Some (m, rest) =>
          GetSubstitution m before rest template ++
          match s with
          | "" => ""
          | String c s' =>
              match String.length m with
              | O => String c (replace_from re template (before ++ String c "") s' 0)
              | S k => replace_from re template (before ++ String c "") s' k
              end
          end
      | None =>
          match s with
          | "" => ""
          | String c s' =>
              String c (replace_from re template (before ++ String c "") s' 0)
          end
      end
  end.

(** [s.replace(new RegExp(pattern, "g"), replacement)]. *)
Definition replace_global (pattern replacement s : string) : option string :=
  re <- compile pattern ;; Some (replace_from re replacement "" s 0).

End RegExp.

(** The substitution as the spec words it: every occurrence of the token,
    read as a plain string, gives way to the path, left to right (an empty
    token occurs before every character and at the end, as for
    [replaceAll]). *)
Fixpoint replace_every_occurrence (token path line : string) (skip : nat)
  {struct line} : string :=
  match skip with
  | S k =>
      match line with
      | "" => ""
      | String _ line' => replace_every_occurrence token path line' k
      end
  | O =>
      if String.prefix token line then
        path ++
        match line with
        | "" => ""
        | String c line' =>
            match String.length token with
            | O => String c (replace_every_occurrence token path line' 0)
            | S k => replace_every_occurrence token path line' k
            end
        end
      else
        match line with
        | "" => ""
        | String c line' => String c (replace_every_occurrence token path line' 0)
        end
  end.

Definition literal_substitution (token path line : string) : string :=
  replace_every_occurrence token path line 0.

(** A token without syntax characters, and a path without dollars. *)
Fixpoint plain (token : string) : bool :=
  match token with
  | "" => true
  | String c t => negb (RegExp.syntax_character c) && plain t
  end.

Fixpoint dollar_free (path : string) : bool :=
  match path with
  | "" => true
  | String c t => negb (Ascii.eqb c "$"%char) && dollar_free t
  end.

(** The pattern that matches [token] and nothing else. *)
Definition literal (token : string) : list RegExp.atom :=
  map RegExp.Chr (list_ascii_of_string token).

(** ** What the driver does to the outside: console lines and harness calls,
    in the order they happen. *)

Inductive close_heading : Type := ShutDown | ExitedUnexpectedly.

Inductive close_detail : Type :=
| WithCode (code : Z)
| WithSignal (signal : string)
| NoDetail.

Inductive effect : Type :=
| BadInput (line : string)              (* line 122 *)
| Echo (seq command : value)            (* line 192 *)
| PrintJSON (response : value)          (* line 196: one line of JSON *)
| Inspect (v : value)                   (* lines 206 and 207 *)
| Uncaught                              (* line 65: main's exception *)
| UnhandledRejection                    (* an exception in an async handler *)
| CloseReport (h : close_heading) (d : close_detail)   (* line 163 *)
| CommunicationErrorReport (err : string)              (* line 171 *)
| ServiceDisabled (projectName : value)                (* line 181 *)
| Message (request : value)             (* server.message(request) *)
| ExitOrKill (timeout : Z)              (* server.exitOrKill(timeout) *)
| Kill.                                 (* server.kill() *)

(** ** Reading the trace (lines 75-135) *)

Module Reader.

Record parser : Type := mkParser {
  rootDirPlaceholder : value;
  serverArgs : value;
  firstLine : bool;
  sawExit : bool;
  requests : list value
}.

(** Lines 75-82. *)
Definition initial : parser :=
  {| rootDirPlaceholder := JStr "@PROJECT_ROOT@";
     serverArgs := JArr [JStr "--disableAutomaticTypingAcquisition"];
     firstLine := true;
     sawExit := false;
     requests := [] |}.

Definition with_header (p a : value) (st : parser) : parser :=
  {| rootDirPlaceholder := p;
     serverArgs := a;
     firstLine := firstLine st;
     sawExit := sawExit st;
     requests := requests st |}.

Definition with_request (saw : bool) (rs : list value) (st : parser) : parser :=
  {| rootDirPlaceholder := rootDirPlaceholder st;
     serverArgs := serverArgs st;
     firstLine := firstLine st;
     sawExit := saw;
     requests := rs |}.

(** The [finally] clause, lines 127-129. *)
Definition finally (st : parser) : parser :=
  {| rootDirPlaceholder := rootDirPlaceholder st;
     serverArgs := serverArgs st;
     firstLine := false;
     sawExit := sawExit st;
     requests := requests st |}.

(** Line 134. *)
Definition exit_sentinel : value :=
  JObj [("seq", JNum 999999%float); ("command", JStr "exit")].

Inductive outcome : Type :=
| Continue (st : parser)
| Exit (status : Z).

Section Handler.

(** [JSON.parse]: [None] when it throws. *)
Variable JSON_parse : string -> option value.
(** [subject.replace(new RegExp(pattern, "g"), replacement)], in the order
    pattern, replacement, subject: [None] when the constructor throws. *)
Variable RegExp_replace : value -> string -> string -> option string.
(** The files and descriptors [fs.readFileSync] can read as text. *)
Variable readFile : string -> option string.
Variable readFd : float -> option string.
(** Line 41: the project directory, canonicalized. *)
Variable testDir : string.

(** [fs.readFileSync(path, { encoding: "utf-8" })]: a path is a string or a
    file descriptor; any other JSON value is refused with a TypeError. *)
Definition readFileSync (path : value) : option string :=
  match path with
  | JStr p => readFile p
  | JNum fd => readFd fd
  | _ => None
  end.

(** One turn of the loops at lines 103-106 and 109-112. *)
Definition read_into (pathKey contentKey : string) (openFile : value)
  : option value :=
  path <- get openFile pathKey ;;
  openFileContents <- readFileSync path ;;
  Some (set openFile contentKey (JStr openFileContents)).

(** The loops at lines 103-106 and 109-112.  The entries are changed in
    place, so the request holds the changed entries afterwards. *)
Definition augment (pathKey contentKey : string) (request : value)
  : option value :=
  arguments <- get request "arguments" ;;
  openFiles <- get arguments "openFiles" ;;
  entries <- for_of openFiles ;;
  entries' <- mapM (read_into pathKey contentKey) entries ;;
  Some (match openFiles with
        | JArr _ => set request "arguments" (set arguments "openFiles" (JArr entries'))
        | _ => request
        end).

(** Lines 102-113. *)
Definition prepare (request : value) : option value :=
  command <- get request "command" ;;
  request <- (if is_str command "updateOpen"
              then augment "file" "fileContent" request
              else Some request) ;;
  command <- get request "command" ;;
  if is_str command "applyChangedToOpenFiles"
  then augment "fileName" "content" request
  else Some request.

(** Lines 92-99: [Some (Some st')] when the line was the header and the
    handler returns, [Some None] when the handler goes on to line 101. *)
Definition header (st : parser) (line : string) : option (option parser) :=
  if firstLine st then
    obj <- JSON_parse line ;;
    command <- get obj "command" ;;
    if negb (truthy command) then
      p <- get obj "rootDirPlaceholder" ;;
      a <- get obj "serverArgs" ;;
      Some (Some (with_header (coalesce p (rootDirPlaceholder st))
                              (coalesce a (serverArgs st)) st))
    else Some None
  else Some None.

(** Line 88. *)
Definition blank (line : string) : bool :=
  Nat.eqb (String.length (trim line)) 0.

(** Lines 102-119: the request is completed, noted when it is an exit, and
    pushed. *)
Definition enqueue (unattended : bool) (st : parser) (request : value)
  : option parser :=
  request <- prepare request ;;
  command <- get request "command" ;;
  let isExit := is_str command "exit" in
  Some (with_request (sawExit st || isExit)
          (if negb isExit || negb unattended
           then requests st ++ [request]
           else requests st)
          st).

(** The [try] block, lines 86-120: the state it leaves, or [None] when an
    exception reaches the [catch] clause.  No assignment to the handler's
    variables precedes a statement that can throw. *)
Definition try_block (unattended : bool) (st : parser) (line : string)
  : option parser :=
  if blank line then Some st
  else
    h <- header st line ;;
    match h with
    | Some st' => Some st'
    | None =>
        text <- RegExp_replace (rootDirPlaceholder st) testDir line ;;
        request <- JSON_parse text ;;
        enqueue unattended st request
    end.

(** The handler of a line, lines 85-130. *)
Definition on_line (unattended : bool) (st : parser) (line : string)
  : list effect * outcome :=
  match try_block unattended st line with
  | Some st' => ([], Continue (finally st'))
  | None =>
      ([BadInput line],
       if unattended then Exit 2 else Continue (finally st))
  end.

(** The handler run on each line of the file in turn (line 131). *)
Fixpoint read_lines (unattended : bool) (st : parser) (lines : list string)
  : list effect * outcome :=
  match lines with
  | [] => ([], Continue st)
  | line :: rest =>
      match on_line unattended st line with
      | (out, Continue st') =>
          let (out', r) := read_lines unattended st' rest in (out ++ out', r)
      | (out, Exit status) => (out, Exit status)
      end
  end.

(** Lines 133-135: the requests the loop at line 190 will go through. *)
Definition emitted (unattended : bool) (st : parser) : list value :=
  if negb (sawExit st) && negb unattended
  then requests st ++ [exit_sentinel]
  else requests st.

(** *** Kinds of lines *)

Definition is_exit (request : value) : bool :=
  match get request "command" with
  | Some command => is_str command "exit"
  | None => false
  end.

(** The requests that are not exits. *)
Definition without_exits (requests : list value) : list value :=
  filter (fun r => negb (is_exit r)) requests.

(** The line is not taken for the header at lines 92-99: it is not the first
    line handled, or it parses to a value that has a command. *)
Definition request_line (st : parser) (line : string) : Prop :=
  firstLine st = false \/
  exists obj command,
    JSON_parse line = Some obj /\ get obj "command" = Some command /\
    truthy command = true.

(** A [JSON.parse] that the handler runs on the line throws. *)
Definition parse_fails (st : parser) (line : string) : Prop :=
  (firstLine st = true /\ JSON_parse line = None) \/
  (request_line st line /\
   exists text,
     RegExp_replace (rootDirPlaceholder st) testDir line = Some text /\
     JSON_parse text = None).

(** An entry of the request's [arguments.openFiles] names a file that cannot
    be read. *)
Definition unreadable (request : value) : Prop :=
  exists command pathKey arguments entries entry path,
    ((command = "updateOpen" /\ pathKey = "file") \/
     (command = "applyChangedToOpenFiles" /\ pathKey = "fileName")) /\
    get request "command" = Some (JStr command) /\
    get request "arguments" = Some arguments /\
    get arguments "openFiles" = Some (JArr entries) /\
    In entry entries /\
    get entry pathKey = Some path /\
    readFileSync path = None.

Definition read_fails (st : parser) (line : string) : Prop :=
  request_line st line /\
  exists text request,
    RegExp_replace (rootDirPlaceholder st) testDir line = Some text /\
    JSON_parse text = Some request /\
    unreadable request.

(** The request has no [arguments] (absent or null), or its [arguments] has
    no [openFiles] that can be gone through. *)
Definition lacks_openFiles (request : value) : Prop :=
  (exists a, get request "arguments" = Some a /\ (a = JUndefined \/ a = JNull)) \/
  (exists a o,
     get request "arguments" = Some a /\ get a "openFiles" = Some o /\
     for_of o = None).

(** A well-formed request line of a trace without header, and the request
    it stands for: the line is JSON with a command, and after the
    substitution it parses to a record that [prepare] completes. *)
Definition well_formed (line : string) (request : value) : Prop :=
  blank line = false /\
  (exists obj command,
     JSON_parse line = Some obj /\ get obj "command" = Some command /\
     truthy command = true) /\
  exists text parsed,
    RegExp_replace (rootDirPlaceholder initial) testDir line = Some text /\
    JSON_parse text = Some parsed /\
    prepare parsed = Some request.

End Handler.

(** A line either leaves the requests and [sawExit] alone, or completes one
    request, notes whether it is an exit, and pushes it unless it is an exit
    read unattended. *)
Definition line_effect (u : bool) (st st' : parser) : Prop :=
  (requests st' = requests st /\
   sawExit st' = sawExit st) \/
  exists request command,
    get request "command" = Some command /\
    sawExit st' = sawExit st || is_exit request /\
    requests st' =
      if negb (is_exit request) || negb u
      then requests st ++ [request]
      else requests st.

End Reader.

(** ** Replaying the requests (lines 158-221)

    Node runs one callback at a time, each to its next [await]: the driver
    is a state, and each settlement or signal the event loop delivers runs
    the callback waiting for it. *)

Module Replay.

(** Where [main] is suspended. *)
Inductive continuation : Type :=
| AwaitMessage (request : value) (rest : list value)   (* line 193 *)
| AwaitShutdown                                        (* line 198 *)
| AwaitFinalShutdown                                   (* line 212 *)
| Returned.

Record driver : Type := mkDriver {
  exitRequested : bool;            (* line 158 *)
  main : continuation;
  (* the exit statuses of the handlers suspended at [await server.kill()],
     lines 174 and 184 *)
  killing : list Z
}.

Inductive process : Type :=
| Running (d : driver)
| Exited (status : Z).

(** What the event loop delivers. *)
Inductive delivery : Type :=
| Resolved (v : value)          (* the promise [main] awaits resolves *)
| Rejected                      (* the promise [main] awaits rejects *)
| Close (code : option Z) (signal : option string)
| CommunicationError (err : string)
| ServerEvent (e : value)
| Killed (n : nat)              (* the [n]-th pending [server.kill()] resolves *)
| LoopEmpty.                    (* nothing is left to run: status 0 *)

Definition set_main (k : continuation) (d : driver) : driver :=
  {| exitRequested := exitRequested d; main := k; killing := killing d |}.

Definition request_exit (d : driver) : driver :=
  {| exitRequested := true; main := main d; killing := killing d |}.

(** [exitOrKillServer], lines 218-221, up to its [await]: the flag is set,
    then the harness is asked. *)
Definition exitOrKillServer (d : driver) : list effect * driver :=
  ([ExitOrKill 5000], request_exit d).

(** The head of the loop, lines 190-193, for the requests still to send, and
    lines 211-212 once none is left; [main] runs up to its next [await].
    Reading [request.command] throws on [undefined] and [null]; the read of
    [request.seq] that follows cannot.  The echo of line 192 is that of a
    [seq] and a [command] that turn into text, as the numbers and strings of
    the trace format do. *)
Definition send_next (unattended : bool) (d : driver) (pending : list value)
  : list effect * process :=
  match pending with
  | request :: rest =>
      match get request "command" with
      | Some command =>
          let seq :=
            match get request "seq" with Some seq => seq | None => JUndefined end in
          ((if unattended then [] else [Echo seq command]) ++ [Message request],
           Running {| exitRequested := exitRequested d || is_str command "exit";
                      main := AwaitMessage request rest;
                      killing := killing d |})
      | None => ([Uncaught], Exited 1)
      end
  | [] =>
      if unattended then
        let (out, d') := exitOrKillServer d in
        (out, Running (set_main AwaitFinalShutdown d'))
      else ([], Running (set_main Returned d))
  end.

(** The condition of line 194; [None] when evaluating it throws. *)
Definition unsuccessful (response : value) : option bool :=
  if truthy response then
    success <- get response "success" ;;
    if negb (truthy success) then
      message <- get response "message" ;;
      Some (negb (is_str message "No content available."))
    else Some false
  else Some false.

(** Lines 194-209, once the response of [request] has arrived. *)
Definition on_response (unattended : bool) (d : driver)
  (request : value) (rest : list value) (response : value)
  : list effect * process :=
  match unsuccessful response with
  | Some true =>
      if unattended then
        let (out, d') := exitOrKillServer d in
        (PrintJSON response :: out, Running (set_main AwaitShutdown d'))
      else
        let (out, p) := send_next unattended d rest in
        (Inspect request :: Inspect response :: out, p)
  | Some false => send_next unattended d rest
  | None => ([Uncaught], Exited 1)
  end.

(** [main] resumes with the value of the promise it awaited. *)
Definition on_resolved (unattended : bool) (d : driver) (v : value)
  : list effect * process :=
  match main d with
  | AwaitMessage request rest => on_response unattended d request rest v
  | AwaitShutdown => ([], Exited 5)                      (* line 203 *)
  | AwaitFinalShutdown =>                                (* lines 212-215 *)
      if truthy v then ([], Running (set_main Returned d)) else ([], Exited 6)
  | Returned => ([], Running d)
  end.

(** [main] resumes with an exception: swallowed at line 200, otherwise it
    leaves [main] and reaches line 64. *)
Definition on_rejected (d : driver) : list effect * process :=
  match main d with
  | AwaitShutdown => ([], Exited 5)
  | AwaitMessage _ _ | AwaitFinalShutdown => ([Uncaught], Exited 1)
  | Returned => ([], Running d)
  end.

(** [code] and [signal] as conditions: a number other than 0, a string
    other than the empty one. *)
Definition code_set (code : option Z) : bool :=
  match code with Some c => negb (Z.eqb c 0) | None => false end.

Definition signal_set (signal : option string) : bool :=
  match signal with Some s => negb (String.eqb s "") | None => false end.

Definition signal_detail (signal : option string) : close_detail :=
  match signal with
  | Some s => if signal_set signal then WithSignal s else NoDetail
  | None => NoDetail
  end.

(** The text of line 163. *)
Definition close_report (exitRequested : bool) (code : option Z)
  (signal : option string) : effect :=
  CloseReport
    (if exitRequested then ShutDown else ExitedUnexpectedly)
    (match code with
     | Some c => if code_set code then WithCode c else signal_detail signal
     | None => signal_detail signal
     end).

(** A close that was not asked for, or that came with a code other than 0
    or with a signal. *)
Definition anomalous (d : driver) (code : option Z) (signal : option string)
  : Prop :=
  exitRequested d = false \/
  (exists c, code = Some c /\ c <> 0%Z) \/
  (exists s, signal = Some s /\ s <> "").

(** The reports of line 163 that tell of an anomaly: every one but the bare
    "Shut down", which says that the server closed as it was asked to, with
    no code and no signal. *)
Definition is_anomaly (e : effect) : bool :=
  match e with
  | CloseReport ExitedUnexpectedly _ => true
  | CloseReport ShutDown (WithCode _) => true
  | CloseReport ShutDown (WithSignal _) => true
  | _ => false
  end.

(** The [close] handler, lines 161-168. *)
Definition on_close (unattended : bool) (d : driver)
  (code : option Z) (signal : option string) : list effect * process :=
  ((if negb unattended || negb (exitRequested d) || code_set code || signal_set signal
    then [close_report (exitRequested d) code signal]
    else []),
   if unattended && negb (exitRequested d) then Exited 3 else Running d).

(** The [communicationError] handler, lines 170-177, up to its [await]. *)
Definition on_communicationError (unattended : bool) (d : driver) (err : string)
  : list effect * process :=
  if unattended then
    ([CommunicationErrorReport err; Kill],
     Running {| exitRequested := true; main := main d; killing := killing d ++ [7%Z] |})
  else ([CommunicationErrorReport err], Running d).

(** [path.normalize], line 181, takes a string and throws on any other
    value. *)
Definition normalizes (projectName : value) : bool :=
  match projectName with
  | JStr _ => true
  | _ => false
  end.

(** The [event] handler, lines 179-188, up to its [await]; an exception in
    it is an unhandled rejection, which ends the process with status 1.  A
    falsy project name is printed as unknown, a truthy one is normalized
    first. *)
Definition on_event (unattended : bool) (d : driver) (e : value)
  : list effect * process :=
  let disabled :=
    event <- get e "event" ;;
    if is_str event "projectLanguageServiceState" then
      body <- get e "body" ;;
      enabled <- get body "languageServiceEnabled" ;;
      if negb (truthy enabled) then
        projectName <- get body "projectName" ;;
        if truthy projectName && negb (normalizes projectName) then None
        else Some (Some projectName)
      else Some None
    else Some None in
  match disabled with
  | Some (Some projectName) =>
      if unattended then
        ([ServiceDisabled projectName; Kill],
         Running {| exitRequested := true; main := main d; killing := killing d ++ [4%Z] |})
      else ([ServiceDisabled projectName], Running d)
  | Some None => ([], Running d)
  | None => ([UnhandledRejection], Exited 1)
  end.

(** Lines 175 and 185: the handler that awaited this [kill] exits. *)
Definition on_killed (d : driver) (n : nat) : list effect * process :=
  match nth_error (killing d) n with
  | Some status => ([], Exited status)
  | None => ([], Running d)
  end.

Definition step (unattended : bool) (d : driver) (x : delivery)
  : list effect * process :=
  match x with
  | Resolved v => on_resolved unattended d v
  | Rejected => on_rejected d
  | Close code signal => on_close unattended d code signal
  | CommunicationError err => on_communicationError unattended d err
  | ServerEvent e => on_event unattended d e
  | Killed n => on_killed d n
  | LoopEmpty => ([], Exited 0)
  end.

Fixpoint run (unattended : bool) (p : process) (xs : list delivery)
  : list effect * process :=
  match p, xs with
  | Running d, x :: xs' =>
      let (out, p') := step unattended d x in
      let (out', p'') := run unattended p' xs' in
      (out ++ out', p'')
  | _, _ => ([], p)
  end.

(** Lines 158-193: the server is launched and [main] runs to its first
    [await] ([send_next] sets where it is suspended). *)
Definition launched : driver :=
  {| exitRequested := false; main := Returned; killing := [] |}.

Definition start (unattended : bool) (requests : list value)
  : list effect * process :=
  send_next unattended launched requests.

(** [main] is not waiting for a response: it has no request to send. *)
Definition quiet (d : driver) : Prop :=
  match main d with
  | AwaitMessage _ _ => False
  | _ => True
  end.

(** A request whose properties can be read (any value but [undefined] and
    [null]). *)
Definition readable (request : value) : Prop :=
  exists command, get request "command" = Some command.

(** The requests handed to the harness, in order. *)
Fixpoint sent (out : list effect) : list value :=
  match out with
  | [] => []
  | Message request :: out' => request :: sent out'
  | _ :: out' => sent out'
  end.

End Replay.

(** ** The whole of [main]

    Lines 137-156 do nothing but build node's arguments when the options
    [-t], [-l] and [-i] are not given, which is the run modelled; the
    launch of line 159 is taken to succeed. *)

Module Driver.

Section Main.

Variable JSON_parse : string -> option value.
Variable RegExp_replace : value -> string -> string -> option string.
Variable readFile : string -> option string.
Variable readFd : float -> option string.
Variable testDir : string.

(** The requests are sent from the start of the loop up to [main]'s first
    [await]; [xs] is what the event loop delivers from then on. *)
Definition replay (unattended : bool) (requests : list value)
  (xs : list Replay.delivery) : list effect * Replay.process :=
  let (out, p) := Replay.start unattended requests in
  let (out', p') := Replay.run unattended p xs in
  (out ++ out', p').

Definition main (unattended : bool) (lines : list string)
  (xs : list Replay.delivery) : list effect * Replay.process :=
  match Reader.read_lines JSON_parse RegExp_replace readFile readFd testDir
          unattended Reader.initial lines with
  | (out, Reader.Exit status) => (out, Replay.Exited status)
  | (out, Reader.Continue st) =>
      let (out', p) := replay unattended (Reader.emitted unattended st) xs in
      (out ++ out', p)
  end.

End Main.

End Driver.

(** ** A runtime to evaluate on

    [JSON_parse] reads the JSON texts made of objects, arrays, strings with
    the one-letter escapes, integers of up to fifteen digits, [true], [false]
    and [null]; texts outside this subset (fractions, exponents, [\u]
    escapes) are not used below.  Files are a table from paths to contents,
    and no file descriptor is readable. *)

Module Node.

Definition dquote : ascii := ascii_of_nat 34.
Definition backslash : ascii := ascii_of_nat 92.

(** JSON texts are written with ['] where the text has a double quote. *)
Fixpoint js (s : string) : string :=
  match s with
  | "" => ""
  | String c s' => String (if Ascii.eqb c "'"%char then dquote else c) (js s')
  end.

Definition is_space (c : ascii) : bool :=
  let n := nat_of_ascii c in
  ((n =? 32) || (n =? 9) || (n =? 10) || (n =? 13))%nat.

Fixpoint skip_space (s : string) : string :=
  match s with
  | "" => ""
  | String c s' => if is_space c then skip_space s' else s
  end.

Fixpoint float_of_nat (n : nat) : float :=
  match n with
  | O => 0%float
  | S k => (float_of_nat k + 1)%float
  end.

Definition digit (c : ascii) : option float :=
  let n := nat_of_ascii c in
  if ((48 <=? n) && (n <=? 57))%nat then Some (float_of_nat (n - 48)) else None.

(** The digits at the start of [s]: their value, their number and the rest. *)
Fixpoint digits (acc : float) (count : nat) (s : string) : float * nat * string :=
  match s with
  | "" => (acc, count, s)
  | String c s' =>
      match digit c with
      | Some d => digits (acc * 10 + d)%float (S count) s'
      | None => (acc, count, s)
      end
  end.

Definition starts_with (c : ascii) (s : string) : bool :=
  match s with
  | String d _ => Ascii.eqb c d
  | "" => false
  end.

(** An integer: no leading zero, nothing of a fraction or exponent after. *)
Definition parse_integer (s : string) : option (float * string) :=
  let '(x, count, rest) := digits 0%float 0 s in
  if (count =? 0)%nat || (15 <? count)%nat then None
  else if starts_with "0"%char s && (1 <? count)%nat then None
  else if starts_with "."%char rest || starts_with "e"%char rest
          || starts_with "E"%char rest then None
  else Some (x, rest).

Definition escape (c : ascii) : option ascii :=
  if Ascii.eqb c dquote then Some dquote
  else if Ascii.eqb c backslash then Some backslash
  else if Ascii.eqb c "/"%char then Some "/"%char
  else if Ascii.eqb c "b"%char then Some (ascii_of_nat 8)
  else if Ascii.eqb c "f"%char then Some (ascii_of_nat 12)
  else if Ascii.eqb c "n"%char then Some (ascii_of_nat 10)
  else if Ascii.eqb c "r"%char then Some (ascii_of_nat 13)
  else if Ascii.eqb c "t"%char then Some (ascii_of_nat 9)
  else None.

(** The string whose opening quote has been read. *)
Fixpoint parse_string (s : string) : option (string * string) :=
  match s with
  | "" => None
  | String c s' =>
      if Ascii.eqb c dquote then Some ("", s')
      else if Ascii.eqb c backslash then
        match s' with
        | "" => None
        | String e s'' =>
            match escape e, parse_string s'' with
            | Some c', Some (str, rest) => Some (String c' str, rest)
            | _, _ => None
            end
        end
      else if (nat_of_ascii c <? 32)%nat then None
      else
        match parse_string s' with
        | Some (str, rest) => Some (String c str, rest)
        | None => None
        end
  end.

Definition keyword (word : string) (v : value) (s : string)
  : option (value * string) :=
  if String.prefix word s
  then Some (v, substring (String.length word) (String.length s - String.length word) s)
  else None.

Fixpoint parse_value (fuel : nat) (s : string) : option (value * string) :=
  match fuel with
  | O => None
  | S fuel' =>
      match skip_space s with
      | "" => None
      | String c s' =>
          if Ascii.eqb c "{"%char then
            if starts_with "}"%char (skip_space s')
            then Some (JObj [], substring 1 (String.length s') (skip_space s'))
            else parse_members fuel' [] s'
          else if Ascii.eqb c "["%char then
            if starts_with "]"%char (skip_space s')
            then Some (JArr [], substring 1 (String.length s') (skip_space s'))
            else parse_elements fuel' [] s'
          else if Ascii.eqb c dquote then
            match parse_string s' with
            | Some (str, rest) => Some (JStr str, rest)
            | None => None
            end
          else if Ascii.eqb c "-"%char then
            match parse_integer s' with
            | Some (x, rest) => Some (JNum (- x)%float, rest)
            | None => None
            end
          else if Ascii.eqb c "t"%char then keyword "true" (JBool true) (String c s')
          else if Ascii.eqb c "f"%char then keyword "false" (JBool false) (String c s')
          else if Ascii.eqb c "n"%char then keyword "null" JNull (String c s')
          else
            match parse_integer (String c s') with
            | Some (x, rest) => Some (JNum x, rest)
            | None => None
            end
      end
  end
with parse_members (fuel : nat) (acc : list (string * value)) (s : string)
  : option (value * string) :=
  match fuel with
  | O => None
  | S fuel' =>
      match skip_space s with
      | "" => None
      | String c s1 =>
          if Ascii.eqb c dquote then
            match parse_string s1 with
            | Some (k, s2) =>
                match skip_space s2 with
                | "" => None
                | String c2 s3 =>
                    if Ascii.eqb c2 ":"%char then
                      match parse_value fuel' s3 with
                      | Some (v, s4) =>
                          match skip_space s4 with
                          | "" => None
                          | String c4 s5 =>
                              if Ascii.eqb c4 ","%char
                              then parse_members fuel' (upsert k v acc) s5
                              else if Ascii.eqb c4 "}"%char
                              then Some (JObj (upsert k v acc), s5)
                              else None
                          end
                      | None => None
                      end
                    else None
                end
            | None => None
            end
          else None
      end
  end
with parse_elements (fuel : nat) (acc : list value) (s : string)
  : option (value * string) :=
  match fuel with
  | O => None
  | S fuel' =>
      match parse_value fuel' s with
      | Some (v, s1) =>
          match skip_space s1 with
          | "" => None
          | String c s2 =>
              if Ascii.eqb c ","%char then parse_elements fuel' (acc ++ [v]) s2
              else if Ascii.eqb c "]"%char then Some (JArr (acc ++ [v]), s2)
              else None
          end
      | None => None
      end
  end.

Definition JSON_parse (text : string) : option value :=
  match parse_value (2 * String.length text + 2) text with
  | Some (v, rest) => if String.eqb (skip_space rest) "" then Some v else None
  | None => None
  end.

(** The placeholder as a pattern.  Where the model of patterns has no
    answer (a pattern outside the fragment, or a placeholder that is not a
    string and would be turned into one first) this runtime gives [None];
    the statements below use it on patterns of the fragment only. *)
Definition RegExp_replace (pattern : value) (replacement subject : string)
  : option string :=
  match pattern with
  | JStr p => RegExp.replace_global p replacement subject
  | _ => None
  end.

Fixpoint readFile (files : list (string * string)) (path : string) : option string :=
  match files with
  | [] => None
  | (p, contents) :: rest =>
      if String.eqb path p then Some contents else readFile rest path
  end.

Definition readFd (fd : float) : option string := None.

Definition on_line (files : list (string * string)) (testDir : string) :=
  Reader.on_line JSON_parse RegExp_replace (readFile files) readFd testDir.

Definition read_lines (files : list (string * string)) (testDir : string) :=
  Reader.read_lines JSON_parse RegExp_replace (readFile files) readFd testDir.

Definition main (files : list (string * string)) (testDir : string) :=
  Driver.main JSON_parse RegExp_replace (readFile files) readFd testDir.

(** Sample lines, the requests they stand for under the project path
    [/proj], and sample responses. *)

Definition open_line : string :=
  js "{'seq':1,'command':'open','arguments':{'file':'@PROJECT_ROOT@/a.ts'}}".

Definition open_request : value :=
  JObj [("seq", JNum 1%float); ("command", JStr "open");
        ("arguments", JObj [("file", JStr "/proj/a.ts")])].

Definition exit_line : string := js "{'seq':2,'command':'exit'}".

Definition exit_request : value :=
  JObj [("seq", JNum 2%float); ("command", JStr "exit")].

Definition updateOpen_line : string :=
  js "{'seq':3,'command':'updateOpen','arguments':{'openFiles':[{'file':'@PROJECT_ROOT@/gone.ts'}]}}".

Definition updateOpen_request : value :=
  JObj [("seq", JNum 3%float); ("command", JStr "updateOpen");
        ("arguments",
         JObj [("openFiles", JArr [JObj [("file", JStr "/proj/gone.ts")]])])].

Definition ok_response : value :=
  JObj [("seq", JNum 0%float); ("success", JBool true)].

Definition awaiting (request : value) : Replay.driver :=
  {| Replay.exitRequested := false;
     Replay.main := Replay.AwaitMessage request [];
     Replay.killing := [] |}.

End Node.

(** ** Paths (lines 52-59) *)

Module Paths.

Definition backslash : ascii := ascii_of_nat 92.

(** The pattern of the literal at line 58, a single backslash. *)
Definition backslashes : list RegExp.atom := [RegExp.Chr backslash].

(** [path.resolve(p).replace(/\\/g, "/")]; [resolve] is [path.resolve]. *)
Definition canonicalizePath (resolve : string -> string) (p : string) : string :=
  RegExp.replace_from backslashes "/" "" (resolve p) 0.

Definition slash (c : ascii) : ascii :=
  if Ascii.eqb c backslash then "/"%char else c.

Fixpoint map_string (f : ascii -> ascii) (s : string) : string :=
  match s with
  | "" => ""
  | String c s' => String (f c) (map_string f s')
  end.

End Paths.

(** ** The options and the launch (lines 47-49 and 137-159) *)

Module Launch.

(** The options [-t], [-l] and [-i] as yargs gives them: absent, or a string,
    or a number. *)
Record options : Type := mkOptions {
  t : option string;
  l : option string;
  i : option float
}.

Definition no_options : options := {| t := None; l := None; i := None |}.

Inductive node_arg : Type :=
| Flag (text : string)
| InspectBrk (port : float).       (* line 155 *)

Section Configure.

Variable resolve : string -> string.           (* path.resolve *)
(** [fs.promises.mkdir(dir, { recursive: true })] resolves. *)
Variable mkdir : string -> bool.
Variable join : string -> string -> string.    (* path.join *)

(** Lines 47 and 48 with the tests of lines 137 and 142: the directory when
    [args.x && canonicalizePath(args.x)] is truthy. *)
Definition directory (a : option string) : option string :=
  match a with
  | None => None
  | Some given =>
      if String.eqb given "" then None
      else
        let dir := Paths.canonicalizePath resolve given in
        if String.eqb dir "" then None else Some dir
  end.

(** [serverArgs.push(...items)]: only an array has [push]. *)
Definition push (serverArgs : value) (items : list value) : option value :=
  match serverArgs with
  | JArr args => Some (JArr (args ++ items))
  | _ => None
  end.

(** Lines 137-146; [None] when [main] throws. *)
Definition configure (serverArgs : value) (o : options) : option value :=
  serverArgs <-
    match directory (t o) with
    | Some traceDir =>
        if mkdir traceDir
        then push serverArgs [JStr "--traceDirectory"; JStr traceDir]
        else None
    | None => Some serverArgs
    end ;;
  match directory (l o) with
  | Some logDir =>
      if mkdir logDir then
        serverArgs <- push serverArgs [JStr "--logVerbosity"; JStr "verbose"] ;;
        push serverArgs [JStr "--logFile"; JStr (join logDir "tsserver.PID.log")]
      else None
  | None => Some serverArgs
  end.

(** Lines 148-156. *)
Definition nodeArgs (o : options) : list node_arg :=
  [Flag "--max-old-space-size=4096"; Flag "--expose-gc"]
    ++ match i o with
       | Some port => if truthy (JNum port) then [InspectBrk port] else []
       | None => []
       end.

Variable JSON_parse : string -> option value.
Variable RegExp_replace : value -> string -> string -> option string.
Variable readFile : string -> option string.
Variable readFd : float -> option string.
Variable testDir : string.

(** [main] with the options: what the server is launched with, when it is,
    and what the driver does. *)
Definition main (o : options) (unattended : bool) (lines : list string)
  (xs : list Replay.delivery)
  : option (value * list node_arg) * (list effect * Replay.process) :=
  match Reader.read_lines JSON_parse RegExp_replace readFile readFd testDir
          unattended Reader.initial lines with
  | (out, Reader.Exit status) => (None, (out, Replay.Exited status))
  | (out, Reader.Continue st) =>
      match configure (Reader.serverArgs st) o with
      | Some serverArgs =>
          let (out', p) :=
            Driver.replay unattended (Reader.emitted unattended st) xs in
          (Some (serverArgs, nodeArgs o), (out ++ out', p))
      | None => (None, (out ++ [Uncaught], Replay.Exited 1))
      end
  end.

End Configure.

End Launch.

(** ** Completed entries *)

Module Entries.

(** What the loops at lines 103-106 and 109-112 leave of an entry: the text
    read at its path, under the content key, and the rest as it was. *)
Definition filled (readFileSync : value -> option string)
  (pathKey contentKey : string) (entry entry' : value) : Prop :=
  exists path contents,
    get entry pathKey = Some path /\
    readFileSync path = Some contents /\
    entry' = set entry contentKey (JStr contents) /\
    get entry' contentKey = Some (JStr contents) /\
    forall k, k <> contentKey -> get entry' k = get entry k.

End Entries.

(** ** Kinds of effects *)

Module Effects.

(** The calls that end the server. *)
Definition forces (e : effect) : bool :=
  match e with
  | Kill | ExitOrKill _ => true
  | _ => false
  end.

(** The calls after which the server is expected to close: those, and the
    sending of an exit. *)
Definition asks (e : effect) : bool :=
  match e with
  | Kill | ExitOrKill _ => true
  | Message request => Reader.is_exit request
  | _ => false
  end.

Definition is_resolved (x : Replay.delivery) : bool :=
  match x with
  | Replay.Resolved _ => true
  | _ => false
  end.

End Effects.

(** ** The steps of the driver, by kind

    What one callback can do, read off the handlers of [Replay]: every step
    of [Replay.step] is of one of these kinds ([step_transition] below). *)

Module Transitions.

Import Replay.

(** An effect that neither sends a request nor ends the server. *)
Definition quiet_effect (e : effect) : bool :=
  match e with
  | Message _ | Kill | ExitOrKill _ => false
  | _ => true
  end.

Definition count_resolved (xs : list delivery) : nat :=
  length (filter Effects.is_resolved xs).

Inductive transition (u : bool) (d : driver) : list effect -> process -> Prop :=
(* a handler that prints at most, or a settlement nobody waits for *)
| t_stay out :
    Forall (fun e => quiet_effect e = true) out ->
    transition u d out (Running d)
(* lines 172-174 and 182-184 *)
| t_kill report status :
    u = true ->
    ((exists err, report = CommunicationErrorReport err) /\ status = 7%Z) \/
    ((exists name, report = ServiceDisabled name) /\ status = 4%Z) ->
    transition u d [report; Kill]
      (Running {| exitRequested := true; main := main d;
                  killing := killing d ++ [status] |})
(* line 166 *)
| t_closed detail :
    u = true -> exitRequested d = false ->
    transition u d [CloseReport ExitedUnexpectedly detail] (Exited 3)
(* lines 175 and 185 *)
| t_killed n status :
    nth_error (killing d) n = Some status ->
    transition u d [] (Exited status)
| t_empty :
    transition u d [] (Exited 0)
(* line 203 *)
| t_failed :
    main d = AwaitShutdown -> transition u d [] (Exited 5)
(* line 214 *)
| t_forced :
    main d = AwaitFinalShutdown -> transition u d [] (Exited 6)
| t_returned :
    main d = AwaitFinalShutdown ->
    transition u d [] (Running (set_main Returned d))
(* line 66, and an unhandled rejection *)
| t_thrown out :
    Forall (fun e => quiet_effect e = true) out ->
    In Uncaught out \/ In UnhandledRejection out ->
    transition u d out (Exited 1)
(* lines 195-198 *)
| t_shutdown request rest response :
    main d = AwaitMessage request rest -> u = true ->
    unsuccessful response = Some true ->
    transition u d [PrintJSON response; ExitOrKill 5000]
      (Running {| exitRequested := true; main := AwaitShutdown;
                  killing := killing d |})
(* lines 190-193, after the response to [request] *)
| t_next request next rest command pre :
    main d = AwaitMessage request (next :: rest) ->
    get next "command" = Some command ->
    Forall (fun e => quiet_effect e = true) pre ->
    transition u d (pre ++ [Message next])
      (Running {| exitRequested := exitRequested d || is_str command "exit";
                  main := AwaitMessage next rest;
                  killing := killing d |})
(* lines 211-212 *)
| t_last_unattended request :
    main d = AwaitMessage request [] -> u = true ->
    transition u d [ExitOrKill 5000]
      (Running {| exitRequested := true; main := AwaitFinalShutdown;
                  killing := killing d |})
| t_last_interactive request pre :
    main d = AwaitMessage request [] -> u = false ->
    Forall (fun e => quiet_effect e = true) pre ->
    transition u d pre (Running (set_main Returned d)).

(** [main] waits for the response to a request with the rest still to
    send, or it has stopped sending. *)
Definition sent_so_far (requests : list value) (acc : list effect) (d : driver)
  : Prop :=
  match main d with
  | AwaitMessage _ rest => requests = sent acc ++ rest
  | _ => exists tail, requests = sent acc ++ tail
  end.

(** Interactive runs: no handler waits for a kill, [main] is in no
    shutdown, and nothing has ended the server. *)
Definition unforced (acc : list effect) (d : driver) : Prop :=
  killing d = [] /\
  existsb Effects.forces acc = false /\
  match main d with
  | AwaitShutdown | AwaitFinalShutdown => False
  | _ => True
  end.

(** Once the driver has asked for the end of the server the flag is set;
    the handlers that wait for a kill exit with 4 or 7. *)
Definition asked_is_flagged (acc : list effect) (d : driver) : Prop :=
  (existsb Effects.asks acc = true -> exitRequested d = true) /\
  Forall (fun status => status = 4%Z \/ status = 7%Z) (killing d).

(** What the output shows of the state the driver is in. *)
Definition accounted (requests : list value) (acc : list effect) (d : driver)
  : Prop :=
  match main d with
  | AwaitMessage _ rest => requests = sent acc ++ rest
  | AwaitShutdown =>
      In (ExitOrKill 5000) acc /\
      exists response,
        In (PrintJSON response) acc /\ unsuccessful response = Some true
  | AwaitFinalShutdown => In (ExitOrKill 5000) acc /\ sent acc = requests
  | Returned => True
  end /\
  Forall (fun status =>
            (status = 4%Z /\ In Kill acc /\ exists name, In (ServiceDisabled name) acc) \/
            (status = 7%Z /\ In Kill acc /\
             exists err, In (CommunicationErrorReport err) acc))
    (killing d).

(** What the output of a run shows when the driver has exited with
    [status]. *)
Definition cause (requests : list value) (out : list effect) (status : Z)
  : Prop :=
  status = 0%Z \/
  (status = 1%Z /\ (In Uncaught out \/ In UnhandledRejection out)) \/
  (status = 3%Z /\ exists detail, In (CloseReport ExitedUnexpectedly detail) out) \/
  (status = 4%Z /\ In Kill out /\ exists name, In (ServiceDisabled name) out) \/
  (status = 5%Z /\ In (ExitOrKill 5000) out /\
   exists response,
     In (PrintJSON response) out /\ unsuccessful response = Some true) \/
  (status = 6%Z /\ In (ExitOrKill 5000) out /\ sent out = requests) \/
  (status = 7%Z /\ In Kill out /\
   exists err, In (CommunicationErrorReport err) out).

(** The state from which the first turn of the loop is a step like the
    others: [main] waiting, with every request still to send. *)
(** Line 181 hands a truthy [projectName] to [path.normalize], which takes
    strings only; a falsy one is printed as unknown.  The events considered
    below name their project, when they name one, by such a value, and so
    never make the handler throw there. *)
Definition printable (projectName : value) : bool :=
  match projectName with
  | JStr _ => true
  | _ => negb (truthy projectName)
  end.

Definition expected (x : delivery) : bool :=
  match x with
  | ServerEvent e =>
      match body <- get e "body" ;; get body "projectName" with
      | Some projectName => printable projectName
      | None => true
      end
  | _ => true
  end.

Definition before_first (requests : list value) : driver :=
  {| exitRequested := false;
     main := AwaitMessage JUndefined requests;
     killing := [] |}.

End Transitions.

(** ** More sample data *)

Module Samples.

Definition header_line : string :=
  Node.js "{'rootDirPlaceholder':'<R>','serverArgs':['--x']}".

Definition rooted_line : string :=
  Node.js "{'seq':1,'command':'open','arguments':{'file':'<R>/a.ts'}}".

(** A first line whose command is the empty string. *)
Definition nameless_line : string := Node.js "{'seq':1,'command':''}".

(** A header whose server arguments are one string. *)
Definition string_args_header : string := Node.js "{'serverArgs':'--x'}".

Definition files : list (string * string) := [("/proj/a.ts", "let x;")].

Definition stale_entry : value :=
  JObj [("file", JStr "/proj/a.ts"); ("fileContent", JStr "old")].

Definition stale_arguments : value := JObj [("openFiles", JArr [stale_entry])].

Definition stale_request : value :=
  JObj [("seq", JNum 3%float); ("command", JStr "updateOpen");
        ("arguments", stale_arguments)].

Definition disabled_event : value :=
  JObj [("event", JStr "projectLanguageServiceState");
        ("body", JObj [("projectName", JStr "/proj/tsconfig.json");
                       ("languageServiceEnabled", JBool false)])].

(** [path.resolve] and [path.join] from the directory [/cwd], on relative
    paths without dots. *)
Definition resolve (p : string) : string := "/cwd/" ++ p.

Definition join (a b : string) : string := a ++ "/" ++ b.

Definition mkdir (dir : string) : bool := true.

Definition trace_options : Launch.options :=
  {| Launch.t := Some "traces"; Launch.l := None; Launch.i := None |}.

Definition launch_main :=
  Launch.main resolve mkdir join Node.JSON_parse Node.RegExp_replace
    (Node.readFile []) Node.readFd "/proj".

End Samples.

(** * Properties *)

(** ** Small facts about values *)

Lemma mapM_fails {A B : Type} (f : A -> option B) (l : list A) (a : A) :
  In a l -> f a = None -> mapM f l = None.
Proof.
  induction l as [|b l IH]; simpl; intros Hin Hf.
  - contradiction.
  - destruct Hin as [-> | Hin].
    + rewrite Hf. reflexivity.
    + destruct (f b); simpl; [|reflexivity].
      rewrite (IH Hin Hf). reflexivity.
Qed.

Lemma lookup_upsert_other (k k' : string) (x : value) (props : list (string * value)) :
  k <> k' -> lookup k (upsert k' x props) = lookup k props.
Proof.
  intros Hne. induction props as [|[k0 v0] props IH]; simpl.
  - destruct (String.eqb_spec k k'); [contradiction | reflexivity].
  - destruct (String.eqb_spec k' k0) as [-> | Hk0]; simpl.
    + destruct (String.eqb_spec k k0); [contradiction | reflexivity].
    + rewrite IH. reflexivity.
Qed.

Lemma get_set_other (v x : value) (k k' : string) :
  k <> k' -> get (set v k' x) k = get v k.
Proof.
  intros Hne. destruct v; simpl; try reflexivity.
  rewrite lookup_upsert_other by assumption. reflexivity.
Qed.

(** A falsy value is the only kind whose properties cannot be read. *)
Lemma truthy_get (v : value) (k : string) :
  truthy v = true -> exists x, get v k = Some x.
Proof. destruct v; simpl; intros H; try discriminate; eauto. Qed.

(** ** The line handler *)

Section ReaderFacts.

Variable JSON_parse : string -> option value.
Variable RegExp_replace : value -> string -> string -> option string.
Variable readFile : string -> option string.
Variable readFd : float -> option string.
Variable testDir : string.

Local Abbreviation readFileSync := (Reader.readFileSync readFile readFd).
Local Abbreviation read_into := (Reader.read_into readFile readFd).
Local Abbreviation augment := (Reader.augment readFile readFd).
Local Abbreviation prepare := (Reader.prepare readFile readFd).
Local Abbreviation header := (Reader.header JSON_parse).
Local Abbreviation enqueue := (Reader.enqueue readFile readFd).
Local Abbreviation try_block :=
  (Reader.try_block JSON_parse RegExp_replace readFile readFd testDir).
Local Abbreviation on_line :=
  (Reader.on_line JSON_parse RegExp_replace readFile readFd testDir).
Local Abbreviation read_lines :=
  (Reader.read_lines JSON_parse RegExp_replace readFile readFd testDir).
Local Abbreviation request_line := (Reader.request_line JSON_parse).
Local Abbreviation parse_fails :=
  (Reader.parse_fails JSON_parse RegExp_replace testDir).
Local Abbreviation read_fails :=
  (Reader.read_fails JSON_parse RegExp_replace readFile readFd testDir).
Local Abbreviation unreadable := (Reader.unreadable readFile readFd).
Local Abbreviation well_formed :=
  (Reader.well_formed JSON_parse RegExp_replace readFile readFd testDir).

Lemma header_of_request_line (st : Reader.parser) (line : string) :
  request_line st line -> header st line = Some None.
Proof.
  unfold Reader.request_line, Reader.header.
  intros [Hfirst | (obj & command & Hparse & Hget & Htruthy)].
  - rewrite Hfirst. reflexivity.
  - destruct (Reader.firstLine st); [|reflexivity].
    rewrite Hparse; simpl. rewrite Hget; simpl. rewrite Htruthy. reflexivity.
Qed.

Lemma try_block_request_line (u : bool) (st : Reader.parser) (line : string) :
  Reader.blank line = false -> request_line st line ->
  try_block u st line =
    (text <- RegExp_replace (Reader.rootDirPlaceholder st) testDir line ;;
     request <- JSON_parse text ;; enqueue u st request).
Proof.
  intros Hblank Hreq. unfold Reader.try_block.
  rewrite Hblank, (header_of_request_line _ _ Hreq). reflexivity.
Qed.

Lemma parse_fails_throws (u : bool) (st : Reader.parser) (line : string) :
  Reader.blank line = false -> parse_fails st line -> try_block u st line = None.
Proof.
  intros Hblank [[Hfirst Hparse] | (Hreq & text & Hsub & Hparse)].
  - unfold Reader.try_block, Reader.header.
    rewrite Hblank, Hfirst, Hparse. reflexivity.
  - rewrite try_block_request_line by assumption.
    rewrite Hsub; simpl. rewrite Hparse. reflexivity.
Qed.

Lemma augment_unreadable (pathKey contentKey : string)
  (request arguments : value) (entries : list value) (entry path : value) :
  get request "arguments" = Some arguments ->
  get arguments "openFiles" = Some (JArr entries) ->
  In entry entries -> get entry pathKey = Some path -> readFileSync path = None ->
  augment pathKey contentKey request = None.
Proof.
  intros Hargs Hfiles Hin Hpath Hread. unfold Reader.augment.
  rewrite Hargs; simpl. rewrite Hfiles; simpl.
  rewrite (mapM_fails _ _ entry Hin); [reflexivity|].
  unfold Reader.read_into. rewrite Hpath; simpl. rewrite Hread. reflexivity.
Qed.

Lemma unreadable_throws (request : value) :
  unreadable request -> prepare request = None.
Proof.
  intros (command & pathKey & arguments & entries & entry & path &
          Hkind & Hcmd & Hargs & Hfiles & Hin & Hpath & Hread).
  unfold Reader.prepare. rewrite Hcmd; simpl.
  destruct Hkind as [[-> ->] | [-> ->]]; simpl.
  - rewrite (augment_unreadable _ _ _ _ _ _ _ Hargs Hfiles Hin Hpath Hread).
    reflexivity.
  - rewrite Hcmd; simpl.
    apply (augment_unreadable _ _ _ _ _ _ _ Hargs Hfiles Hin Hpath Hread).
Qed.

Lemma read_fails_throws (u : bool) (st : Reader.parser) (line : string) :
  Reader.blank line = false -> read_fails st line -> try_block u st line = None.
Proof.
  intros Hblank (Hreq & text & request & Hsub & Hparse & Hbad).
  rewrite try_block_request_line by assumption.
  rewrite Hsub; simpl. rewrite Hparse; simpl.
  unfold Reader.enqueue. rewrite (unreadable_throws _ Hbad). reflexivity.
Qed.

(** C6.  A line on which a [JSON.parse] of the handler throws, or for which
    a file named in [arguments.openFiles] cannot be read, is reported with
    its raw text; unattended, the driver then exits with status 2;
    interactive, the handler's state keeps its requests (the line yields
    none) and the remaining lines are read from it. *)
Theorem bad_line_reported_then_fatal_or_skipped
  (st : Reader.parser) (line : string) (rest : list string) :
  Reader.blank line = false ->
  parse_fails st line \/ read_fails st line ->
  on_line true st line = ([BadInput line], Reader.Exit 2) /\
  read_lines true st (line :: rest) = ([BadInput line], Reader.Exit 2) /\
  on_line false st line = ([BadInput line], Reader.Continue (Reader.finally st)) /\
  Reader.requests (Reader.finally st) = Reader.requests st /\
  read_lines false st (line :: rest) =
    (BadInput line :: fst (read_lines false (Reader.finally st) rest),
     snd (read_lines false (Reader.finally st) rest)).
Proof.
  intros Hblank Hbad.
  assert (Hthrow : forall u, try_block u st line = None).
  { intros u. destruct Hbad as [Hp | Hr].
    - apply parse_fails_throws; assumption.
    - apply read_fails_throws; assumption. }
  assert (Hon : forall u, on_line u st line =
            ([BadInput line],
             if u then Reader.Exit 2 else Reader.Continue (Reader.finally st))).
  { intros u. unfold Reader.on_line. rewrite Hthrow. reflexivity. }
  repeat split.
  - apply Hon.
  - simpl. rewrite (Hon true). reflexivity.
  - apply Hon.
  - simpl. rewrite (Hon false).
    destruct (read_lines false (Reader.finally st) rest). reflexivity.
Qed.

Lemma augment_lacks_openFiles (pathKey contentKey : string) (request : value) :
  Reader.lacks_openFiles request -> augment pathKey contentKey request = None.
Proof.
  unfold Reader.augment.
  intros [(a & Hargs & Ha) | (a & o & Hargs & Hfiles & Hiter)].
  - rewrite Hargs; simpl. destruct Ha as [-> | ->]; reflexivity.
  - rewrite Hargs; simpl. rewrite Hfiles; simpl. rewrite Hiter. reflexivity.
Qed.

(** C9.  A line that is handled as a request and parses, after the
    substitution, to a record whose command is [updateOpen] or
    [applyChangedToOpenFiles] but which has no [arguments], or whose
    [arguments] has no [openFiles] to go through, cannot be completed; the
    exception is caught by the handler, which reports the raw line and then
    exits with status 2 when unattended and skips the line otherwise, as for
    a line that does not parse. *)
Theorem request_without_openFiles_is_bad_input
  (st : Reader.parser) (line text command : string) (request : value) :
  Reader.blank line = false ->
  request_line st line ->
  RegExp_replace (Reader.rootDirPlaceholder st) testDir line = Some text ->
  JSON_parse text = Some request ->
  get request "command" = Some (JStr command) ->
  command = "updateOpen" \/ command = "applyChangedToOpenFiles" ->
  Reader.lacks_openFiles request ->
  prepare request = None /\
  on_line true st line = ([BadInput line], Reader.Exit 2) /\
  on_line false st line = ([BadInput line], Reader.Continue (Reader.finally st)) /\
  Reader.requests (Reader.finally st) = Reader.requests st.
Proof.
  intros Hblank Hreq Hsub Hparse Hcmd Hkind Hlack.
  assert (Hprep : prepare request = None).
  { unfold Reader.prepare. rewrite Hcmd; simpl.
    destruct Hkind as [-> | ->]; simpl.
    - rewrite augment_lacks_openFiles by assumption. reflexivity.
    - rewrite Hcmd; simpl. apply augment_lacks_openFiles; assumption. }
  assert (Hthrow : forall u, try_block u st line = None).
  { intros u. rewrite try_block_request_line by assumption.
    rewrite Hsub; simpl. rewrite Hparse; simpl.
    unfold Reader.enqueue. rewrite Hprep. reflexivity. }
  unfold Reader.on_line. rewrite !Hthrow. repeat split; assumption.
Qed.

(** C10.  A line that is not the first one handled and that parses, after
    the substitution, to an object without [command] leaves the placeholder
    and the server arguments as they are; the record is pushed, as parsed, at
    the end of the request list in both modes, and the send loop hands it to
    the harness when its turn comes, as it does any request. *)
Theorem commandless_line_after_first_is_a_request
  (u : bool) (st : Reader.parser) (line text : string)
  (props : list (string * value)) :
  Reader.firstLine st = false ->
  Reader.blank line = false ->
  RegExp_replace (Reader.rootDirPlaceholder st) testDir line = Some text ->
  JSON_parse text = Some (JObj props) ->
  lookup "command" props = JUndefined ->
  on_line u st line =
    ([], Reader.Continue
           {| Reader.rootDirPlaceholder := Reader.rootDirPlaceholder st;
              Reader.serverArgs := Reader.serverArgs st;
              Reader.firstLine := false;
              Reader.sawExit := Reader.sawExit st;
              Reader.requests := Reader.requests st ++ [JObj props] |}) /\
  forall (d : Replay.driver) (rest : list value),
    Replay.send_next u d (JObj props :: rest) =
      ((if u then [] else [Echo (lookup "seq" props) JUndefined])
         ++ [Message (JObj props)],
       Replay.Running
         {| Replay.exitRequested := Replay.exitRequested d;
            Replay.main := Replay.AwaitMessage (JObj props) rest;
            Replay.killing := Replay.killing d |}).
Proof.
  intros Hfirst Hblank Hsub Hparse Hcmd. split.
  - unfold Reader.on_line.
    rewrite try_block_request_line by (try assumption; left; assumption).
    rewrite Hsub; simpl. rewrite Hparse; simpl.
    unfold Reader.enqueue, Reader.prepare; simpl. rewrite Hcmd; simpl.
    rewrite Hcmd; simpl. unfold Reader.finally, Reader.with_request; simpl.
    rewrite Hcmd; simpl. rewrite orb_false_r. reflexivity.
  - intros d rest. unfold Replay.send_next; simpl. rewrite Hcmd; simpl.
    rewrite orb_false_r. reflexivity.
Qed.

(** *** What a handled line leaves behind *)

Lemma augment_keeps_command (pathKey contentKey : string) (request request' : value) :
  augment pathKey contentKey request = Some request' ->
  get request' "command" = get request "command".
Proof.
  unfold Reader.augment.
  destruct (get request "arguments") as [arguments|]; simpl; [|discriminate].
  destruct (get arguments "openFiles") as [openFiles|]; simpl; [|discriminate].
  destruct (for_of openFiles) as [entries|]; simpl; [|discriminate].
  destruct (mapM _ entries) as [entries'|]; simpl; [|discriminate].
  intros [= <-]. destruct openFiles; try reflexivity.
  apply get_set_other. discriminate.
Qed.

Lemma prepare_keeps_command (request request' : value) :
  prepare request = Some request' ->
  get request' "command" = get request "command" /\
  exists command, get request "command" = Some command.
Proof.
  unfold Reader.prepare.
  destruct (get request "command") as [command|] eqn:Hcmd; simpl; [|discriminate].
  destruct (is_str command "updateOpen").
  - destruct (augment "file" "fileContent" request) as [r1|] eqn:H1; simpl;
      [|discriminate].
    pose proof (augment_keeps_command _ _ _ _ H1) as K1.
    rewrite K1, Hcmd; simpl.
    destruct (is_str command "applyChangedToOpenFiles").
    + intros H2. apply augment_keeps_command in H2.
      rewrite H2, K1, Hcmd. eauto.
    + intros [= <-]. rewrite K1, Hcmd. eauto.
  - simpl. rewrite Hcmd; simpl.
    destruct (is_str command "applyChangedToOpenFiles").
    + intros H2. apply augment_keeps_command in H2. rewrite H2, Hcmd. eauto.
    + intros [= <-]. rewrite Hcmd. eauto.
Qed.

Lemma on_line_effect (u : bool) (st st' : Reader.parser) (line : string)
  (out : list effect) :
  on_line u st line = (out, Reader.Continue st') -> Reader.line_effect u st st'.
Proof.
  unfold Reader.on_line.
  destruct (try_block u st line) as [st1|] eqn:Htry.
  - intros [= _ <-]. revert Htry. unfold Reader.try_block.
    destruct (Reader.blank line).
    { intros [= <-]. left. split; reflexivity. }
    destruct (header st line) as [[st2|]|] eqn:Hh; simpl; try discriminate.
    + intros [= <-]. left. revert Hh. unfold Reader.header.
      destruct (Reader.firstLine st); [|discriminate].
      destruct (JSON_parse line) as [obj|]; simpl; [|discriminate].
      destruct (get obj "command") as [c|]; simpl; [|discriminate].
      destruct (truthy c); simpl; [discriminate|].
      destruct (get obj "rootDirPlaceholder"); simpl; [|discriminate].
      destruct (get obj "serverArgs"); simpl; [|discriminate].
      intros [= <-]. split; reflexivity.
    + destruct (RegExp_replace _ testDir line) as [text|]; simpl; [|discriminate].
      destruct (JSON_parse text) as [parsed|]; simpl; [|discriminate].
      unfold Reader.enqueue.
      destruct (prepare parsed) as [request|]; simpl; [|discriminate].
      destruct (get request "command") as [command|] eqn:Hcmd; simpl;
        [|discriminate].
      intros [= <-]. right. exists request, command.
      unfold Reader.is_exit. rewrite Hcmd. simpl. auto.
  - destruct u; [discriminate|].
    intros [= _ <-]. left. split; reflexivity.
Qed.

(** Interactive: [sawExit] says whether an exit is among the requests. *)
Lemma interactive_sawExit (lines : list string) :
  forall (st st' : Reader.parser) (out : list effect),
    Reader.sawExit st = existsb Reader.is_exit (Reader.requests st) ->
    read_lines false st lines = (out, Reader.Continue st') ->
    Reader.sawExit st' = existsb Reader.is_exit (Reader.requests st').
Proof.
  induction lines as [|line lines IH]; simpl; intros st st' out Hinv.
  - intros [= _ <-]. assumption.
  - destruct (on_line false st line) as [o [st1|status]] eqn:Hon; [|discriminate].
    destruct (read_lines false st1 lines) as [o' r] eqn:Hrest.
    intros [= _ ->]. apply (IH st1 st' o'); [|assumption].
    destruct (on_line_effect _ _ _ _ _ Hon)
      as [[Hr Hs] | (request & command & _ & Hs & Hr)].
    + rewrite Hr, Hs. assumption.
    + rewrite Hs, Hr, orb_true_r, existsb_app, Hinv. simpl.
      rewrite orb_false_r. reflexivity.
Qed.

(** Unattended: no exit is among the requests. *)
Lemma unattended_drops_exits (lines : list string) :
  forall (st st' : Reader.parser) (out : list effect),
    Forall (fun r => Reader.is_exit r = false) (Reader.requests st) ->
    read_lines true st lines = (out, Reader.Continue st') ->
    Forall (fun r => Reader.is_exit r = false) (Reader.requests st').
Proof.
  induction lines as [|line lines IH]; simpl; intros st st' out Hinv.
  - intros [= _ <-]. assumption.
  - destruct (on_line true st line) as [o [st1|status]] eqn:Hon; [|discriminate].
    destruct (read_lines true st1 lines) as [o' r] eqn:Hrest.
    intros [= _ ->]. apply (IH st1 st' o'); [|assumption].
    destruct (on_line_effect _ _ _ _ _ Hon)
      as [[Hr Hs] | (request & command & _ & Hs & Hr)].
    + rewrite Hr. assumption.
    + rewrite Hr. destruct (Reader.is_exit request) eqn:He; simpl; [assumption|].
      apply Forall_app. split; [assumption|]. constructor; [assumption|constructor].
Qed.

(** C7.  When the lines have all been read and no request among those read
    is an exit, the interactive request list is the requests read followed
    by [{seq: 999999, command: "exit"}], which is its last element: a
    record of these two properties and no other, whose [seq] is the number
    999999 and whose [command] is the string "exit".  Unattended, the
    request list is the requests read, with nothing added, and holds no
    exit at all. *)
Theorem exit_sentinel_closes_interactive_trace
  (lines : list string) (out : list effect) (st : Reader.parser) :
  (read_lines false Reader.initial lines = (out, Reader.Continue st) ->
   Forall (fun r => Reader.is_exit r = false) (Reader.requests st) ->
   Reader.emitted false st = Reader.requests st ++ [Reader.exit_sentinel] /\
   last (Reader.emitted false st) JUndefined = Reader.exit_sentinel /\
   Reader.emitted false st
     = Reader.requests st
       ++ [JObj [("seq", JNum 999999%float); ("command", JStr "exit")]] /\
   last (Reader.emitted false st) JUndefined
     = JObj [("seq", JNum 999999%float); ("command", JStr "exit")] /\
   get (last (Reader.emitted false st) JUndefined) "seq"
     = Some (JNum 999999%float) /\
   get (last (Reader.emitted false st) JUndefined) "command"
     = Some (JStr "exit") /\
   Reader.is_exit (last (Reader.emitted false st) JUndefined) = true) /\
  (read_lines true Reader.initial lines = (out, Reader.Continue st) ->
   Reader.emitted true st = Reader.requests st /\
   Forall (fun r => Reader.is_exit r = false) (Reader.emitted true st)).
Proof.
  split.
  - intros Hread Hnone.
    assert (Hsaw : Reader.sawExit st = false).
    { rewrite (interactive_sawExit lines Reader.initial st out eq_refl Hread).
      clear Hread. induction Hnone as [|r rs Hr _ IH]; simpl.
      - reflexivity.
      - rewrite Hr, IH. reflexivity. }
    unfold Reader.emitted. rewrite Hsaw. simpl.
    rewrite last_last. repeat split; reflexivity.
  - intros Hread. unfold Reader.emitted. rewrite andb_false_r.
    split; [reflexivity|].
    apply (unattended_drops_exits lines Reader.initial st out); [constructor|assumption].
Qed.

End ReaderFacts.

(** ** The signal handlers and the send loop *)

Section ReplayFacts.

Import Replay.

Lemma sent_app (a b : list effect) : sent (a ++ b) = sent a ++ sent b.
Proof.
  induction a as [|e a IH]; simpl; [reflexivity|].
  destruct e; simpl; rewrite ?IH; reflexivity.
Qed.

(** Line 194 never throws: a truthy response has properties to read. *)
Lemma unsuccessful_total (response : value) :
  exists b, unsuccessful response = Some b.
Proof.
  unfold unsuccessful. destruct (truthy response) eqn:Ht; [|eauto].
  destruct (truthy_get response "success" Ht) as [s ->].
  destruct (truthy_get response "message" Ht) as [m ->]. simpl.
  destruct (truthy s); simpl; eauto.
Qed.

Lemma code_set_spec (code : option Z) :
  code_set code = true <-> exists c, code = Some c /\ c <> 0%Z.
Proof.
  destruct code as [c|]; simpl.
  - destruct (Z.eqb_spec c 0); simpl; split.
    + discriminate.
    + intros (c' & [= <-] & Hne). contradiction.
    + eauto.
    + reflexivity.
  - split; [discriminate | intros (c & H & _); discriminate].
Qed.

Lemma signal_set_spec (signal : option string) :
  signal_set signal = true <-> exists s, signal = Some s /\ s <> "".
Proof.
  destruct signal as [s|]; simpl.
  - destruct (String.eqb_spec s ""); simpl; split.
    + discriminate.
    + intros (s' & [= <-] & Hne). contradiction.
    + eauto.
    + reflexivity.
  - split; [discriminate | intros (s & H & _); discriminate].
Qed.

(** C4.  On every close of the server, in either mode, an anomaly is
    reported exactly when the close is anomalous: not asked for by the
    driver, or with a code other than 0, or with a signal.  The report is
    then the text of line 163: "Exited unexpectedly" for a close that was
    not asked for, "Shut down" with the code or the signal otherwise.  When
    the close is not anomalous no anomaly is reported: an unattended driver
    prints nothing, an interactive one the bare "Shut down", so that a
    report of any kind is printed exactly when the driver is interactive or
    the close anomalous.  The handler exits, with status 3, exactly when
    the driver is unattended and the close was not asked for; otherwise the
    driver goes on unchanged. *)
Theorem anomaly_reported_iff_close_anomalous
  (u : bool) (d : driver) (code : option Z) (signal : option string) :
  (existsb is_anomaly (fst (on_close u d code signal)) = true
   <-> anomalous d code signal) /\
  (anomalous d code signal ->
   fst (on_close u d code signal) = [close_report (exitRequested d) code signal] /\
   is_anomaly (close_report (exitRequested d) code signal) = true /\
   exists detail,
     close_report (exitRequested d) code signal
     = CloseReport (if exitRequested d then ShutDown else ExitedUnexpectedly)
         detail /\
     (exitRequested d = true -> detail <> NoDetail)) /\
  (~ anomalous d code signal ->
   fst (on_close u d code signal)
   = if u then [] else [CloseReport ShutDown NoDetail]) /\
  (fst (on_close u d code signal) <> [] <-> u = false \/ anomalous d code signal) /\
  (snd (on_close u d code signal) = Exited 3 <-> u = true /\ exitRequested d = false) /\
  (snd (on_close u d code signal) = Exited 3 \/
   snd (on_close u d code signal) = Running d).
Proof.
  assert (Hdetail :
            code_set code || signal_set signal = false ->
            match code with
            | Some c => if code_set code then WithCode c else signal_detail signal
            | None => signal_detail signal
            end = NoDetail).
  { unfold signal_detail.
    destruct code as [c|], signal as [s|]; simpl;
      try destruct (Z.eqb c 0); try destruct (String.eqb s "");
      simpl; intros H; try discriminate; reflexivity. }
  assert (Hshown :
            code_set code || signal_set signal = true ->
            match code with
            | Some c => if code_set code then WithCode c else signal_detail signal
            | None => signal_detail signal
            end <> NoDetail).
  { unfold signal_detail.
    destruct code as [c|], signal as [s|]; simpl;
      try destruct (Z.eqb c 0); try destruct (String.eqb s "");
      simpl; intros H; try discriminate H; discriminate. }
  assert (Hiff : anomalous d code signal
                 <-> negb (exitRequested d) || (code_set code || signal_set signal)
                     = true).
  { unfold anomalous. rewrite <- code_set_spec, <- signal_set_spec.
    destruct (exitRequested d), (code_set code), (signal_set signal); simpl;
      intuition discriminate. }
  assert (Hreport : negb (exitRequested d) || (code_set code || signal_set signal)
                    = true ->
                    is_anomaly (close_report (exitRequested d) code signal) = true).
  { unfold close_report. destruct (exitRequested d); simpl; [|reflexivity].
    intros H. apply Hshown in H.
    destruct (match code with
              | Some c => if code_set code then WithCode c else signal_detail signal
              | None => signal_detail signal
              end); try reflexivity. contradiction H. reflexivity. }
  assert (Hprint : negb (exitRequested d) || (code_set code || signal_set signal)
                   = true ->
                   fst (on_close u d code signal)
                   = [close_report (exitRequested d) code signal]).
  { unfold on_close. simpl. rewrite <- !orb_assoc. intros ->.
    rewrite orb_true_r. reflexivity. }
  assert (Hplain : negb (exitRequested d) || (code_set code || signal_set signal)
                   = false ->
                   fst (on_close u d code signal)
                   = if u then [] else [CloseReport ShutDown NoDetail]).
  { unfold on_close, close_report. simpl. rewrite <- !orb_assoc. intros H.
    rewrite H. apply orb_false_iff in H. destruct H as [Hreq Hnone].
    apply negb_false_iff in Hreq. rewrite Hreq, (Hdetail Hnone).
    destruct u; reflexivity. }
  split; [|split; [|split; [|split; [|split]]]].
  - rewrite Hiff.
    destruct (negb (exitRequested d) || (code_set code || signal_set signal))
      eqn:Hcond.
    + rewrite (Hprint eq_refl). cbn [existsb]. rewrite (Hreport eq_refl).
      split; reflexivity.
    + rewrite (Hplain eq_refl). destruct u; simpl; split; discriminate.
  - intros Ha. apply Hiff in Ha. split; [exact (Hprint Ha)|].
    split; [exact (Hreport Ha)|].
    unfold close_report. eexists. split; [reflexivity|].
    intros Hreq. rewrite Hreq in Ha. simpl in Ha. exact (Hshown Ha).
  - intros Hn. apply Hplain.
    destruct (negb (exitRequested d) || (code_set code || signal_set signal))
      eqn:Hcond; [|reflexivity].
    contradiction Hn. apply Hiff. reflexivity.
  - rewrite Hiff.
    destruct (negb (exitRequested d) || (code_set code || signal_set signal))
      eqn:Hcond.
    + rewrite (Hprint eq_refl). split; [auto | discriminate].
    + rewrite (Hplain eq_refl). destruct u; split; intros H;
        first [ discriminate
              | left; reflexivity
              | exfalso; apply H; reflexivity
              | destruct H; discriminate ].
  - unfold on_close. simpl.
    destruct u, (exitRequested d); simpl; split; intros H;
      try discriminate; try (destruct H; discriminate); auto.
  - unfold on_close. simpl. destruct (u && negb (exitRequested d)); auto.
Qed.

(** *** Responses *)

(** Once [main] has no request to send, none is sent, whatever the event
    loop delivers. *)
Lemma step_quiet (u : bool) (d : driver) (x : delivery) :
  quiet d ->
  sent (fst (step u d x)) = [] /\
  forall d', snd (step u d x) = Running d' -> quiet d'.
Proof.
  unfold quiet. intros Hq.
  destruct x as [v| |code signal|err|e|n|]; simpl.
  - unfold on_resolved. destruct (main d) eqn:Hm; simpl; try contradiction.
    + split; [reflexivity | discriminate].
    + destruct (truthy v); simpl; split; try reflexivity; try discriminate.
      intros d' [= <-]. simpl. exact I.
    + split; [reflexivity|]. intros d' [= <-]. rewrite Hm. exact I.
  - unfold on_rejected. destruct (main d) eqn:Hm; simpl; try contradiction.
    + split; [reflexivity | discriminate].
    + split; [reflexivity | discriminate].
    + split; [reflexivity|]. intros d' [= <-]. rewrite Hm. exact I.
  - unfold on_close.
    destruct (negb u || negb (exitRequested d) || code_set code || signal_set signal);
      destruct (u && negb (exitRequested d)); simpl;
      split; try reflexivity; try discriminate; intros d' [= <-]; assumption.
  - unfold on_communicationError. destruct u; simpl; split; try reflexivity;
      intros d' [= <-]; simpl; assumption.
  - unfold on_event.
    destruct (_ <- get e "event" ;; _) as [[projectName|]|]; simpl.
    + destruct u; simpl; split; try reflexivity; intros d' [= <-]; simpl; assumption.
    + split; [reflexivity|]. intros d' [= <-]. assumption.
    + split; [reflexivity | discriminate].
  - unfold on_killed. destruct (nth_error (killing d) n); simpl.
    + split; [reflexivity | discriminate].
    + split; [reflexivity|]. intros d' [= <-]. assumption.
  - split; [reflexivity | discriminate].
Qed.

Lemma run_quiet (u : bool) (xs : list delivery) :
  forall d, quiet d -> sent (fst (run u (Running d) xs)) = [].
Proof.
  induction xs as [|x xs IH]; intros d Hq; simpl; [reflexivity|].
  destruct (step_quiet u d x Hq) as [Hsent Hnext].
  destruct (step u d x) as [out p]. simpl in Hsent, Hnext.
  destruct p as [d'|status].
  - specialize (IH d' (Hnext d' eq_refl)).
    destruct (run u (Running d') xs) as [out' p']. simpl in *.
    rewrite sent_app, Hsent, IH. reflexivity.
  - destruct xs; simpl; rewrite app_nil_r; assumption.
Qed.

(** The condition of line 194 on a response record: its [success] is a
    boolean. *)
Lemma unsuccessful_record (props : list (string * value)) (b : bool) :
  lookup "success" props = JBool b ->
  (unsuccessful (JObj props) = Some true <->
   b = false /\ lookup "message" props <> JStr "No content available.") /\
  (unsuccessful (JObj props) = Some false <->
   b = true \/ lookup "message" props = JStr "No content available.").
Proof.
  intros Hs. unfold unsuccessful; simpl. rewrite Hs; simpl.
  destruct b; simpl.
  - split; split; intros H; try discriminate; auto. destruct H; discriminate.
  - assert (Hm : is_str (lookup "message" props) "No content available." = true
                 <-> lookup "message" props = JStr "No content available.").
    { destruct (lookup "message" props); simpl; split; intros H; try discriminate.
      - apply String.eqb_eq in H. subst. reflexivity.
      - injection H as ->. reflexivity. }
    destruct (is_str (lookup "message" props) "No content available."); simpl.
    + split; split; intros H; try discriminate; auto.
      * destruct H as [_ H]. contradiction H. apply Hm. reflexivity.
      * right. apply Hm. reflexivity.
    + split; split; intros H; try discriminate; auto.
      * split; [reflexivity|]. intros K. apply Hm in K. discriminate.
      * destruct H as [H | H]; [discriminate|]. apply Hm in H. discriminate.
Qed.

(** C2.  [main] has sent [request] and receives its response, a record whose
    [success] is a boolean.  The failure path of lines 195-207 is taken
    exactly when [success] is false and the message is not
    "No content available."; with no response it is not taken.  When it is
    taken unattended, the response is printed as one line of JSON, the
    shutdown of [exitOrKillServer] is started, the driver exits with status
    5 when that shutdown settles, resolved or rejected, and no request is
    sent in between whatever else is delivered.  When it is taken
    interactively, the request and the response are printed and the loop
    goes on with the next request.  When it is not taken the loop goes on
    with the next request at once.  Going on with the next request is
    sending it: interactively the next request of the list is echoed and
    handed to the harness, after the two printed values when the path was
    taken, and [main] waits for its response with the requests after it
    still to send; when none is left [main] returns and nothing is sent. *)
Theorem unsuccessful_response_path
  (d : driver) (request : value) (rest : list value)
  (props : list (string * value)) (b : bool) :
  main d = AwaitMessage request rest ->
  lookup "success" props = JBool b ->
  (unsuccessful (JObj props) = Some true <->
   b = false /\ lookup "message" props <> JStr "No content available.") /\
  (b = false /\ lookup "message" props <> JStr "No content available." ->
   step true d (Resolved (JObj props)) =
     ([PrintJSON (JObj props); ExitOrKill 5000],
      Running {| exitRequested := true; main := AwaitShutdown; killing := killing d |}) /\
   (forall v,
      step true {| exitRequested := true; main := AwaitShutdown; killing := killing d |}
        (Resolved v) = ([], Exited 5)) /\
   step true {| exitRequested := true; main := AwaitShutdown; killing := killing d |}
     Rejected = ([], Exited 5) /\
   (forall xs,
      sent (fst (run true
                   (Running {| exitRequested := true; main := AwaitShutdown;
                               killing := killing d |}) xs)) = []) /\
   step false d (Resolved (JObj props)) =
     (Inspect request :: Inspect (JObj props) :: fst (send_next false d rest),
      snd (send_next false d rest))) /\
  (b = true \/ lookup "message" props = JStr "No content available." ->
   forall u, step u d (Resolved (JObj props)) = send_next u d rest) /\
  (forall u, step u d (Resolved JUndefined) = send_next u d rest) /\
  (forall u, step u d (Resolved JNull) = send_next u d rest) /\
  (forall next rest' command,
     rest = next :: rest' ->
     get next "command" = Some command ->
     (b = false /\ lookup "message" props <> JStr "No content available." ->
      step false d (Resolved (JObj props)) =
        ([Inspect request; Inspect (JObj props);
          Echo match get next "seq" with Some seq => seq | None => JUndefined end
               command;
          Message next],
         Running {| exitRequested := exitRequested d || is_str command "exit";
                    main := AwaitMessage next rest';
                    killing := killing d |}) /\
      sent (fst (step false d (Resolved (JObj props)))) = [next]) /\
     (b = true \/ lookup "message" props = JStr "No content available." ->
      step false d (Resolved (JObj props)) =
        ([Echo match get next "seq" with Some seq => seq | None => JUndefined end
               command;
          Message next],
         Running {| exitRequested := exitRequested d || is_str command "exit";
                    main := AwaitMessage next rest';
                    killing := killing d |}) /\
      step true d (Resolved (JObj props)) =
        ([Message next],
         Running {| exitRequested := exitRequested d || is_str command "exit";
                    main := AwaitMessage next rest';
                    killing := killing d |}))) /\
  (rest = [] ->
   (b = false /\ lookup "message" props <> JStr "No content available." ->
    step false d (Resolved (JObj props)) =
      ([Inspect request; Inspect (JObj props)], Running (set_main Returned d))) /\
   (b = true \/ lookup "message" props = JStr "No content available." ->
    step false d (Resolved (JObj props)) = ([], Running (set_main Returned d)))).
Proof.
  intros Hmain Hs.
  destruct (unsuccessful_record props b Hs) as [Hyes Hno].
  split; [exact Hyes|]. split; [|split; [|split; [|split; [|split]]]].
  - intros Hfail. apply Hyes in Hfail.
    repeat split.
    + simpl. unfold on_resolved, on_response. rewrite Hmain, Hfail. reflexivity.
    + intros xs. apply run_quiet. exact I.
    + simpl. unfold on_resolved, on_response. rewrite Hmain, Hfail.
      destruct (send_next false d rest). reflexivity.
  - intros Hok u. apply Hno in Hok.
    simpl. unfold on_resolved, on_response. rewrite Hmain, Hok. reflexivity.
  - intros u. simpl. unfold on_resolved, on_response. rewrite Hmain. reflexivity.
  - intros u. simpl. unfold on_resolved, on_response. rewrite Hmain. reflexivity.
  - intros next rest' command -> Hcmd. split.
    + intros Hfail. apply Hyes in Hfail.
      cbn [step]. unfold on_resolved, on_response, send_next.
      rewrite Hmain, Hfail, Hcmd. split; reflexivity.
    + intros Hok. apply Hno in Hok.
      cbn [step]. unfold on_resolved, on_response, send_next.
      rewrite Hmain, Hok, Hcmd. split; reflexivity.
  - intros ->. split.
    + intros Hfail. apply Hyes in Hfail.
      cbn [step]. unfold on_resolved, on_response, send_next.
      rewrite Hmain, Hfail. reflexivity.
    + intros Hok. apply Hno in Hok.
      cbn [step]. unfold on_resolved, on_response, send_next.
      rewrite Hmain, Hok. reflexivity.
Qed.

(** *** Whole runs of the loop *)

Lemma send_next_readable (u : bool) (d : driver) (request : value)
  (rest : list value) :
  readable request ->
  exists echo command,
    get request "command" = Some command /\
    sent echo = [] /\
    (u = true -> echo = []) /\
    send_next u d (request :: rest) =
      (echo ++ [Message request],
       Running {| exitRequested := exitRequested d || is_str command "exit";
                  main := AwaitMessage request rest;
                  killing := killing d |}).
Proof.
  intros [command Hcmd].
  exists (if u then []
          else [Echo match get request "seq" with
                     | Some seq => seq
                     | None => JUndefined
                     end command]), command.
  unfold send_next. rewrite Hcmd.
  destruct u; simpl; repeat split; auto; discriminate.
Qed.

(** Interactive: when every request but the last is answered, every request
    is sent, in order, whatever the responses say. *)
Lemma interactive_run_sends_all (pending : list value) :
  forall (responses : list value) (d : driver),
    Forall readable pending ->
    length pending <= S (length responses) ->
    sent (fst (send_next false d pending)
          ++ fst (run false (snd (send_next false d pending))
                    (map Resolved responses))) = pending.
Proof.
  induction pending as [|request rest IH]; intros responses d Hread Hlen.
  - simpl fst; simpl snd. rewrite sent_app. simpl.
    apply run_quiet. exact I.
  - inversion Hread as [|? ? Hr Hrest]; subst.
    destruct (send_next_readable false d request rest Hr)
      as (echo & command & Hcmd & Hecho & _ & ->).
    simpl fst; simpl snd.
    set (d1 := {| exitRequested := exitRequested d || is_str command "exit";
                  main := AwaitMessage request rest; killing := killing d |}).
    destruct responses as [|v vs].
    + destruct rest; [|simpl in Hlen; lia].
      simpl. rewrite !sent_app, Hecho. reflexivity.
    + simpl in Hlen. assert (Hlen' : length rest <= S (length vs)) by lia.
      specialize (IH vs d1 Hrest Hlen').
      simpl map. simpl run. unfold on_resolved, on_response. simpl main.
      destruct (unsuccessful_total v) as [[|] ->];
        destruct (send_next false d1 rest) as [out p]; simpl in IH;
        destruct (run false p (map Resolved vs)) as [out' p']; simpl in *;
        rewrite !sent_app, Hecho in *; simpl; rewrite ?sent_app;
        f_equal; exact IH.
Qed.

(** Unattended: with one response for each request, none of them
    unsuccessful, every request is sent, in order, and the shutdown of
    lines 211-212 follows. *)
Lemma unattended_run_sends_all (pending : list value) :
  forall (responses : list value) (d : driver),
    Forall readable pending ->
    Forall (fun v => unsuccessful v = Some false) responses ->
    length responses = length pending ->
    fst (send_next true d pending)
      ++ fst (run true (snd (send_next true d pending)) (map Resolved responses))
      = map Message pending ++ [ExitOrKill 5000] /\
    snd (run true (snd (send_next true d pending)) (map Resolved responses))
      = Running {| exitRequested := true; main := AwaitFinalShutdown;
                   killing := killing d |}.
Proof.
  induction pending as [|request rest IH]; intros responses d Hread Hok Hlen.
  - destruct responses; [|discriminate]. split; reflexivity.
  - destruct responses as [|v vs]; [discriminate|].
    inversion Hread as [|? ? Hr Hrest]; subst.
    inversion Hok as [|? ? Hv Hvs]; subst.
    destruct (send_next_readable true d request rest Hr)
      as (echo & command & Hcmd & _ & Hecho & ->).
    rewrite (Hecho eq_refl).
    simpl fst; simpl snd. simpl map. simpl run.
    unfold on_resolved, on_response. simpl main. rewrite Hv.
    injection Hlen as Hlen.
    set (d1 := {| exitRequested := exitRequested d || is_str command "exit";
                  main := AwaitMessage request rest; killing := killing d |}).
    destruct (IH vs d1 Hrest Hvs Hlen) as [IHout IHp].
    destruct (send_next true d1 rest) as [out p]. simpl in IHout, IHp.
    destruct (run true p (map Resolved vs)) as [out' p']. simpl in *.
    split; [|exact IHp]. f_equal. exact IHout.
Qed.

(** C8.  Unattended, when the response to the last request arrives and is
    not unsuccessful, [exitRequested] is set and the harness is asked to
    exit or kill the server with a grace period of 5000; a whole run in
    which each request is answered so sends every request and ends there.
    While the driver waits, the flag is set, so a clean close is neither
    reported nor fatal.  If the harness answers false (the server had to be
    killed) the driver exits with status 6; if it answers true [main]
    returns without exiting, and the process ends with status 0 when
    nothing is left to run. *)
Theorem unattended_shutdown_after_last_request
  (d : driver) (request response : value)
  (requests responses : list value) :
  main d = AwaitMessage request [] ->
  unsuccessful response = Some false ->
  Forall readable requests ->
  Forall (fun v => unsuccessful v = Some false) responses ->
  length responses = length requests ->
  step true d (Resolved response) =
    ([ExitOrKill 5000],
     Running {| exitRequested := true; main := AwaitFinalShutdown;
                killing := killing d |}) /\
  Driver.replay true requests (map Resolved responses) =
    (map Message requests ++ [ExitOrKill 5000],
     Running {| exitRequested := true; main := AwaitFinalShutdown; killing := [] |}) /\
  (forall k,
     let waiting := {| exitRequested := true; main := AwaitFinalShutdown;
                       killing := k |} in
     step true waiting (Close (Some 0%Z) None) = ([], Running waiting) /\
     step true waiting (Resolved (JBool false)) = ([], Exited 6) /\
     step true waiting (Resolved (JBool true)) =
       ([], Running {| exitRequested := true; main := Returned; killing := k |}) /\
     step true {| exitRequested := true; main := Returned; killing := k |} LoopEmpty
       = ([], Exited 0)).
Proof.
  intros Hmain Hresp Hread Hok Hlen. split; [|split].
  - simpl. unfold on_resolved, on_response. rewrite Hmain, Hresp. reflexivity.
  - unfold Driver.replay, start.
    destruct (unattended_run_sends_all requests responses launched Hread Hok Hlen)
      as [Hout Hp].
    destruct (send_next true launched requests) as [out p]. simpl in Hout, Hp.
    destruct (run true p (map Resolved responses)) as [out' p']. simpl in *.
    rewrite Hout, Hp. reflexivity.
  - intros k. repeat split.
Qed.

End ReplayFacts.

(** ** Whole traces *)

Section DriverFacts.

Variable JSON_parse : string -> option value.
Variable RegExp_replace : value -> string -> string -> option string.
Variable readFile : string -> option string.
Variable readFd : float -> option string.
Variable testDir : string.

Local Abbreviation on_line :=
  (Reader.on_line JSON_parse RegExp_replace readFile readFd testDir).
Local Abbreviation read_lines :=
  (Reader.read_lines JSON_parse RegExp_replace readFile readFd testDir).
Local Abbreviation well_formed :=
  (Reader.well_formed JSON_parse RegExp_replace readFile readFd testDir).
Local Abbreviation main :=
  (Driver.main JSON_parse RegExp_replace readFile readFd testDir).

Lemma well_formed_readable (line : string) (request : value) :
  well_formed line request -> Replay.readable request.
Proof.
  intros (_ & _ & text & parsed & _ & _ & Hprep).
  destruct (prepare_keeps_command _ _ _ _ Hprep) as [Hsame [command Hcmd]].
  exists command. rewrite Hsame. exact Hcmd.
Qed.

Lemma on_line_well_formed (u : bool) (st : Reader.parser) (line : string)
  (request : value) :
  Reader.rootDirPlaceholder st = Reader.rootDirPlaceholder Reader.initial ->
  well_formed line request ->
  on_line u st line =
    ([], Reader.Continue
           (Reader.finally
              (Reader.with_request
                 (Reader.sawExit st || Reader.is_exit request)
                 (if negb (Reader.is_exit request) || negb u
                  then Reader.requests st ++ [request]
                  else Reader.requests st)
                 st))).
Proof.
  intros Hph (Hblank & (obj & c & Hraw & Hc & Htruthy) & text & parsed &
              Hsub & Hparse & Hprep).
  unfold Reader.on_line.
  rewrite try_block_request_line;
    [|assumption|right; exists obj, c; auto].
  rewrite Hph, Hsub; simpl. rewrite Hparse; simpl.
  unfold Reader.enqueue. rewrite Hprep; simpl.
  destruct (prepare_keeps_command _ _ _ _ Hprep) as [Hsame [command Hcmd]].
  unfold Reader.is_exit. rewrite Hsame, Hcmd. reflexivity.
Qed.

(** Reading well-formed request lines: nothing is printed, and every
    request is pushed in order, the exits excepted when unattended. *)
Lemma read_well_formed (u : bool) (lines : list string) (records : list value) :
  Forall2 well_formed lines records ->
  forall st,
    Reader.rootDirPlaceholder st = Reader.rootDirPlaceholder Reader.initial ->
    exists st',
      read_lines u st lines = ([], Reader.Continue st') /\
      Reader.requests st' =
        Reader.requests st
          ++ (if u then filter (fun r => negb (Reader.is_exit r)) records
              else records) /\
      Reader.sawExit st' = Reader.sawExit st || existsb Reader.is_exit records.
Proof.
  induction 1 as [|line request lines records Hwf _ IH]; intros st Hph.
  - exists st. simpl. rewrite orb_false_r.
    destruct u; rewrite app_nil_r; auto.
  - simpl. rewrite (on_line_well_formed u st line request Hph Hwf).
    match goal with
    | |- context [Reader.finally ?s] => destruct (IH (Reader.finally s) Hph)
        as (st' & Hread & Hreqs & Hsaw)
    end.
    exists st'. rewrite Hread. split; [reflexivity|].
    rewrite Hreqs, Hsaw. simpl.
    destruct u, (Reader.is_exit request); simpl;
      rewrite <- ?app_assoc, ?orb_true_r, ?orb_false_r; simpl; auto.
Qed.

Lemma without_exits_trailing (body : list value) (x : value) :
  Reader.is_exit x = true ->
  Reader.without_exits (body ++ [x]) = Reader.without_exits body /\
  existsb Reader.is_exit (body ++ [x]) = true.
Proof.
  intros Hx. unfold Reader.without_exits.
  rewrite filter_app, existsb_app. simpl. rewrite Hx. simpl.
  rewrite app_nil_r, orb_true_r. auto.
Qed.

Lemma without_exits_none (body : list value) :
  Forall (fun r => Reader.is_exit r = false) body ->
  Reader.without_exits body = body.
Proof.
  unfold Reader.without_exits.
  induction 1 as [|r rs Hr _ IH]; simpl; [reflexivity|].
  rewrite Hr, IH. reflexivity.
Qed.

Lemma without_exits_readable (body : list value) :
  Forall Replay.readable body -> Forall Replay.readable (Reader.without_exits body).
Proof.
  unfold Reader.without_exits.
  induction 1 as [|r rs Hr _ IH]; simpl; [constructor|].
  destruct (Reader.is_exit r); simpl; [assumption | constructor; assumption].
Qed.

(** C1.  The trace is made of well-formed request lines, the last of them
    an exit.  Interactive, the requests to send are the requests of the
    lines, as many and in the same order; unattended, they are the same
    without the exit (without any exit; [body] itself when the exit is the
    only one).  When the server answers the requests, an interactive run
    sends exactly those requests, the exit last; an unattended run whose
    answers are not unsuccessful sends the requests that are not exits and
    then starts the shutdown of [exitOrKillServer] instead of sending the
    exit. *)
Theorem well_formed_trace_round_trip
  (lines : list string) (body : list value) (x : value) :
  Forall2 well_formed lines (body ++ [x]) ->
  Reader.is_exit x = true ->
  (exists st,
     read_lines false Reader.initial lines = ([], Reader.Continue st) /\
     Reader.emitted false st = body ++ [x]) /\
  (exists st,
     read_lines true Reader.initial lines = ([], Reader.Continue st) /\
     Reader.emitted true st = Reader.without_exits body) /\
  (Forall (fun r => Reader.is_exit r = false) body ->
   Reader.without_exits body = body) /\
  (forall responses,
     length body <= length responses ->
     Replay.sent (fst (main false lines (map Replay.Resolved responses)))
       = body ++ [x]) /\
  (forall responses,
     length responses = length (Reader.without_exits body) ->
     Forall (fun v => Replay.unsuccessful v = Some false) responses ->
     main true lines (map Replay.Resolved responses) =
       (map Message (Reader.without_exits body) ++ [ExitOrKill 5000],
        Replay.Running
          {| Replay.exitRequested := true;
             Replay.main := Replay.AwaitFinalShutdown;
             Replay.killing := [] |})).
Proof.
  intros Hwf Hx.
  destruct (without_exits_trailing body x Hx) as [Hfilter Hexists].
  destruct (read_well_formed false lines _ Hwf Reader.initial eq_refl)
    as (sti & Hreadi & Hreqsi & Hsawi).
  destruct (read_well_formed true lines _ Hwf Reader.initial eq_refl)
    as (stu & Hreadu & Hrequ & Hsawu).
  simpl in Hreqsi, Hsawi, Hrequ, Hsawu.
  fold (Reader.without_exits (body ++ [x])) in Hrequ. rewrite Hfilter in Hrequ.
  rewrite Hexists in Hsawi.
  assert (Hemi : Reader.emitted false sti = body ++ [x]).
  { unfold Reader.emitted. rewrite Hsawi. exact Hreqsi. }
  assert (Hemu : Reader.emitted true stu = Reader.without_exits body).
  { unfold Reader.emitted. rewrite andb_false_r. exact Hrequ. }
  assert (Hreadable : Forall Replay.readable (body ++ [x])).
  { clear - Hwf. induction Hwf as [|l r ls rs H _ IH]; constructor; auto.
    apply (well_formed_readable l r H). }
  split; [exists sti; auto|]. split; [exists stu; auto|].
  split; [apply without_exits_none|]. split.
  - intros responses Hlen. unfold Driver.main. rewrite Hreadi, Hemi.
    unfold Driver.replay, Replay.start.
    assert (Hlen' : length (body ++ [x]) <= S (length responses)).
    { rewrite length_app. simpl. lia. }
    pose proof (interactive_run_sends_all (body ++ [x]) responses
                  Replay.launched Hreadable Hlen') as Hsent.
    destruct (Replay.send_next false Replay.launched (body ++ [x])) as [out p].
    simpl in Hsent.
    destruct (Replay.run false p (map Replay.Resolved responses)) as [out' p'].
    simpl in *. exact Hsent.
  - intros responses Hlen Hok. unfold Driver.main. rewrite Hreadu, Hemu.
    apply Forall_app in Hreadable. destruct Hreadable as [Hrb _].
    apply without_exits_readable in Hrb.
    unfold Driver.replay, Replay.start.
    destruct (unattended_run_sends_all _ responses Replay.launched Hrb Hok Hlen)
      as [Hout Hp].
    destruct (Replay.send_next true Replay.launched (Reader.without_exits body))
      as [out p].
    simpl in Hout, Hp.
    destruct (Replay.run true p (map Replay.Resolved responses)) as [out' p'].
    simpl in *. rewrite Hout, Hp. reflexivity.
Qed.

End DriverFacts.

(** ** The substitution of the placeholder *)

Section SubstitutionFacts.

Import RegExp.

Lemma listed_is_syntax (c d : ascii) :
  Ascii.eqb c d = true -> syntax_character d = true -> syntax_character c = true.
Proof. intros H. apply Ascii.eqb_eq in H. subst. trivial. Qed.

Lemma compile_plain (token : string) :
  plain token = true -> compile token = Some (literal token).
Proof.
  induction token as [|c t IH]; simpl; intros H; [reflexivity|].
  apply andb_true_iff in H. destruct H as [Hc Ht].
  apply negb_true_iff in Hc.
  destruct (Ascii.eqb c ".") eqn:Hdot;
    [rewrite (listed_is_syntax c "." Hdot eq_refl) in Hc; discriminate|].
  destruct (Ascii.eqb c "^") eqn:Hbol;
    [rewrite (listed_is_syntax c "^" Hbol eq_refl) in Hc; discriminate|].
  destruct (Ascii.eqb c "$") eqn:Heol;
    [rewrite (listed_is_syntax c "$" Heol eq_refl) in Hc; discriminate|].
  rewrite Hc, (IH Ht). reflexivity.
Qed.

Lemma match_here_literal (token : string) :
  forall at_start s,
    (String.prefix token s = true ->
     exists rest, match_here (literal token) at_start s = Some (token, rest)) /\
    (String.prefix token s = false ->
     match_here (literal token) at_start s = None).
Proof.
  induction token as [|c t IH]; intros at_start s.
  - split.
    + intros _. exists s. reflexivity.
    + destruct s; simpl; discriminate.
  - destruct s as [|b s]; simpl.
    + split; [discriminate | reflexivity].
    + destruct (ascii_dec c b) as [<- | Hne].
      * rewrite Ascii.eqb_refl. destruct (IH false s) as [Hyes Hno]. split.
        -- intros H. destruct (Hyes H) as [rest Hrest].
           exists rest. unfold literal in Hrest. rewrite Hrest. reflexivity.
        -- intros H. unfold literal in Hno. rewrite (Hno H). reflexivity.
      * assert (Hbc : Ascii.eqb b c = false).
        { apply Ascii.eqb_neq. congruence. }
        rewrite Hbc. split; [discriminate | reflexivity].
Qed.

Lemma GetSubstitution_dollar_free (matched before after template : string) :
  dollar_free template = true ->
  GetSubstitution matched before after template = template.
Proof.
  induction template as [|c t IH]; simpl; intros H; [reflexivity|].
  apply andb_true_iff in H. destruct H as [Hc Ht].
  apply negb_true_iff in Hc. rewrite Hc, (IH Ht). reflexivity.
Qed.

Lemma replace_from_literal (token path : string) :
  dollar_free path = true ->
  forall s before skip,
    replace_from (literal token) path before s skip =
    replace_every_occurrence token path s skip.
Proof.
  intros Hpath. induction s as [|c s IH]; intros before skip.
  - destruct skip; [|reflexivity].
    cbn [replace_from replace_every_occurrence].
    destruct (match_here_literal token (String.eqb before "") "") as [Hyes Hno].
    destruct (String.prefix token "") eqn:Hp.
    + destruct (Hyes eq_refl) as [rest ->].
      rewrite GetSubstitution_dollar_free by assumption. reflexivity.
    + rewrite (Hno eq_refl). reflexivity.
  - destruct skip as [|k].
    + cbn [replace_from replace_every_occurrence].
      destruct (match_here_literal token (String.eqb before "") (String c s))
        as [Hyes Hno].
      destruct (String.prefix token (String c s)) eqn:Hp.
      * destruct (Hyes eq_refl) as [rest ->].
        rewrite GetSubstitution_dollar_free by assumption.
        destruct (String.length token); rewrite IH; reflexivity.
      * rewrite (Hno eq_refl), IH. reflexivity.
    + cbn [replace_from replace_every_occurrence]. apply IH.
Qed.

(** C5, as the code has it.  When the placeholder token has no syntax
    character of regular expressions and the project path has no dollar,
    the substitution of line 101 replaces every occurrence of the token,
    read as a plain string, by the path; the default token is such a token.
    On a line handled as a request, the text given to [JSON.parse] is the
    line after that substitution. *)
Theorem plain_placeholder_is_substituted_literally
  (token path line : string) :
  plain token = true ->
  dollar_free path = true ->
  replace_global token path line = Some (literal_substitution token path line) /\
  plain "@PROJECT_ROOT@" = true /\
  forall (JSON_parse : string -> option value)
         (readFile : string -> option string) (readFd : float -> option string)
         (u : bool) (st : Reader.parser),
    Reader.rootDirPlaceholder st = JStr token ->
    Reader.blank line = false ->
    Reader.request_line JSON_parse st line ->
    Reader.try_block JSON_parse Node.RegExp_replace readFile readFd path u st line =
      (request <- JSON_parse (literal_substitution token path line) ;;
       Reader.enqueue readFile readFd u st request).
Proof.
  intros Htoken Hpath.
  assert (Hsub : replace_global token path line
                 = Some (literal_substitution token path line)).
  { unfold replace_global. rewrite (compile_plain token Htoken). simpl.
    rewrite replace_from_literal by assumption. reflexivity. }
  split; [exact Hsub|]. split; [reflexivity|].
  intros JSON_parse readFile readFd u st Hph Hblank Hreq.
  rewrite try_block_request_line by assumption.
  rewrite Hph. unfold Node.RegExp_replace. rewrite Hsub. reflexivity.
Qed.

(** C5 as stated fails.  The token is read as a pattern: in [$ROOT$] the
    dollars are end-of-text assertions, so no occurrence of the token is
    ever replaced; in [<.>] the dot stands for any character, so [<x>] is
    replaced, which is no occurrence of the token.  A dollar in the path is
    read as a replacement pattern: [$$] puts one dollar. *)
Lemma placeholder_is_read_as_a_pattern :
  (replace_global "$ROOT$" "/proj" "open $ROOT$/a.ts" = Some "open $ROOT$/a.ts" /\
   literal_substitution "$ROOT$" "/proj" "open $ROOT$/a.ts" = "open /proj/a.ts" /\
   replace_global "$ROOT$" "/proj" "open $ROOT$/a.ts"
     <> Some (literal_substitution "$ROOT$" "/proj" "open $ROOT$/a.ts")) /\
  (replace_global "<.>" "/proj" "open <x>/a.ts" = Some "open /proj/a.ts" /\
   replace_global "<.>" "/proj" "open <x>/a.ts"
     <> Some (literal_substitution "<.>" "/proj" "open <x>/a.ts")) /\
  (replace_global "@PROJECT_ROOT@" "/home/$$x" "open @PROJECT_ROOT@/a.ts"
     = Some "open /home/$x/a.ts" /\
   replace_global "@PROJECT_ROOT@" "/home/$$x" "open @PROJECT_ROOT@/a.ts"
     <> Some (literal_substitution "@PROJECT_ROOT@" "/home/$$x"
                "open @PROJECT_ROOT@/a.ts")).
Proof. repeat split; try reflexivity; vm_compute; discriminate. Qed.

End SubstitutionFacts.

(** ** The runtime at work *)

Section Examples.

Import Node.

(** C3 fails on the code.  A blank line before the header is the first line
    handled: the [finally] clause runs on the [return] of line 89 and ends
    the first-line detection.  The header that follows keeps the default
    placeholder and server arguments and is pushed as a request, and the
    token it names is not substituted in the next line. *)
Example blank_line_before_header_disables_it :
  read_lines [] "/proj" false Reader.initial
    [ " ";
      js "{'rootDirPlaceholder':'<R>','serverArgs':['--x']}";
      js "{'seq':1,'command':'open','arguments':{'file':'<R>/a.ts'}}" ]
  = ([],
     Reader.Continue
       {| Reader.rootDirPlaceholder := JStr "@PROJECT_ROOT@";
          Reader.serverArgs := JArr [JStr "--disableAutomaticTypingAcquisition"];
          Reader.firstLine := false;
          Reader.sawExit := false;
          Reader.requests :=
            [ JObj [("rootDirPlaceholder", JStr "<R>");
                    ("serverArgs", JArr [JStr "--x"])];
              JObj [("seq", JNum 1%float); ("command", JStr "open");
                    ("arguments", JObj [("file", JStr "<R>/a.ts")])] ] |}).
Proof. vm_compute. reflexivity. Qed.

(** Without the blank line the same header is consumed. *)
Example header_on_first_line_is_consumed :
  read_lines [] "/proj" false Reader.initial
    [ js "{'rootDirPlaceholder':'<R>','serverArgs':['--x']}";
      js "{'seq':1,'command':'open','arguments':{'file':'<R>/a.ts'}}" ]
  = ([],
     Reader.Continue
       {| Reader.rootDirPlaceholder := JStr "<R>";
          Reader.serverArgs := JArr [JStr "--x"];
          Reader.firstLine := false;
          Reader.sawExit := false;
          Reader.requests :=
            [ JObj [("seq", JNum 1%float); ("command", JStr "open");
                    ("arguments", JObj [("file", JStr "/proj/a.ts")])] ] |}).
Proof. vm_compute. reflexivity. Qed.

(** A blank line leaves the state as it is, but for [firstLine]. *)
Lemma blank_line_ends_first_line_detection
  (JSON_parse : string -> option value)
  (RegExp_replace : value -> string -> string -> option string)
  (rf : string -> option string) (rfd : float -> option string)
  (testDir : string) (u : bool) (st : Reader.parser) (line : string) :
  Reader.blank line = true ->
  Reader.on_line JSON_parse RegExp_replace rf rfd testDir u st line
    = ([], Reader.Continue (Reader.finally st)).
Proof.
  intros H. unfold Reader.on_line, Reader.try_block. rewrite H. reflexivity.
Qed.

Lemma open_line_well_formed :
  Reader.well_formed JSON_parse RegExp_replace (readFile []) readFd "/proj"
    open_line open_request.
Proof.
  split; [reflexivity|]. split.
  - exists (JObj [("seq", JNum 1%float); ("command", JStr "open");
                  ("arguments", JObj [("file", JStr "@PROJECT_ROOT@/a.ts")])]),
      (JStr "open").
    repeat split; vm_compute; reflexivity.
  - exists (js "{'seq':1,'command':'open','arguments':{'file':'/proj/a.ts'}}"),
      open_request.
    repeat split; vm_compute; reflexivity.
Defined.

Lemma exit_line_well_formed :
  Reader.well_formed JSON_parse RegExp_replace (readFile []) readFd "/proj"
    exit_line exit_request.
Proof.
  split; [reflexivity|]. split.
  - exists exit_request, (JStr "exit"). repeat split; vm_compute; reflexivity.
  - exists exit_line, exit_request. repeat split; vm_compute; reflexivity.
Defined.

(** C1 on a trace of one request and an exit. *)
Lemma well_formed_trace_round_trip_witness :
  Forall2 (Reader.well_formed JSON_parse RegExp_replace (readFile []) readFd "/proj")
    [open_line; exit_line] ([open_request] ++ [exit_request]) /\
  Replay.sent (fst (main [] "/proj" false [open_line; exit_line]
                      (map Replay.Resolved [ok_response; ok_response])))
    = [open_request; exit_request] /\
  main [] "/proj" true [open_line; exit_line] (map Replay.Resolved [ok_response])
    = ([Message open_request; ExitOrKill 5000],
       Replay.Running
         {| Replay.exitRequested := true;
            Replay.main := Replay.AwaitFinalShutdown;
            Replay.killing := [] |}).
Proof.
  assert (Hwf : Forall2
            (Reader.well_formed JSON_parse RegExp_replace (readFile []) readFd "/proj")
            [open_line; exit_line] ([open_request] ++ [exit_request])).
  { apply Forall2_cons; [exact open_line_well_formed|].
    apply Forall2_cons; [exact exit_line_well_formed | apply Forall2_nil]. }
  assert (Hok : Forall (fun v => Replay.unsuccessful v = Some false) [ok_response]).
  { constructor; [reflexivity | constructor]. }
  destruct (well_formed_trace_round_trip JSON_parse RegExp_replace (readFile [])
              readFd "/proj" [open_line; exit_line] [open_request] exit_request
              Hwf eq_refl)
    as (_ & _ & _ & Hi & Hu).
  split; [exact Hwf|]. split.
  - apply (Hi [ok_response; ok_response]). simpl. lia.
  - exact (Hu [ok_response] eq_refl Hok).
Defined.

(** C2 on the response [{success: false, message: "oops"}], an exit being
    the next request. *)
Lemma unsuccessful_response_path_witness :
  Replay.step true
    {| Replay.exitRequested := false;
       Replay.main := Replay.AwaitMessage open_request [exit_request];
       Replay.killing := [] |}
    (Replay.Resolved (JObj [("success", JBool false); ("message", JStr "oops")]))
  = ([PrintJSON (JObj [("success", JBool false); ("message", JStr "oops")]);
      ExitOrKill 5000],
     Replay.Running
       {| Replay.exitRequested := true;
          Replay.main := Replay.AwaitShutdown;
          Replay.killing := [] |}) /\
  Replay.step false
    {| Replay.exitRequested := false;
       Replay.main := Replay.AwaitMessage open_request [exit_request];
       Replay.killing := [] |}
    (Replay.Resolved (JObj [("success", JBool false); ("message", JStr "oops")]))
  = ([Inspect open_request;
      Inspect (JObj [("success", JBool false); ("message", JStr "oops")]);
      Echo (JNum 2%float) (JStr "exit");
      Message exit_request],
     Replay.Running
       {| Replay.exitRequested := true;
          Replay.main := Replay.AwaitMessage exit_request [];
          Replay.killing := [] |}).
Proof.
  destruct (unsuccessful_response_path
              {| Replay.exitRequested := false;
                 Replay.main := Replay.AwaitMessage open_request [exit_request];
                 Replay.killing := [] |}
              open_request [exit_request]
              [("success", JBool false); ("message", JStr "oops")] false
              eq_refl eq_refl) as (_ & Hfail & _ & _ & _ & Hnext & _).
  assert (Htaken : false = false /\
                   lookup "message"
                     [("success", JBool false); ("message", JStr "oops")]
                   <> JStr "No content available.")
    by (split; [reflexivity | discriminate]).
  split.
  - exact (proj1 (Hfail Htaken)).
  - exact (proj1 (proj1 (Hnext exit_request [] (JStr "exit") eq_refl eq_refl)
                    Htaken)).
Defined.

(** C4 on the close an interactive driver asked for, with code 0 and no
    signal, and on the same close with code 1. *)
Lemma anomaly_reported_iff_close_anomalous_witness :
  ~ Replay.anomalous
      {| Replay.exitRequested := true;
         Replay.main := Replay.Returned;
         Replay.killing := [] |} (Some 0%Z) None /\
  fst (Replay.on_close false
         {| Replay.exitRequested := true;
            Replay.main := Replay.Returned;
            Replay.killing := [] |} (Some 0%Z) None)
  = [CloseReport ShutDown NoDetail] /\
  fst (Replay.on_close true
         {| Replay.exitRequested := true;
            Replay.main := Replay.Returned;
            Replay.killing := [] |} (Some 1%Z) None)
  = [CloseReport ShutDown (WithCode 1)].
Proof.
  assert (Hclean : ~ Replay.anomalous
                     {| Replay.exitRequested := true;
                        Replay.main := Replay.Returned;
                        Replay.killing := [] |} (Some 0%Z) None).
  { intros [H | [(c & [= <-] & Hne) | (s & H & _)]].
    - discriminate H.
    - apply Hne. reflexivity.
    - discriminate H. }
  split; [exact Hclean|]. split.
  - exact (proj1 (proj2 (proj2
             (anomaly_reported_iff_close_anomalous false
                {| Replay.exitRequested := true;
                   Replay.main := Replay.Returned;
                   Replay.killing := [] |} (Some 0%Z) None))) Hclean).
  - refine (proj1 (proj1 (proj2
              (anomaly_reported_iff_close_anomalous true
                 {| Replay.exitRequested := true;
                    Replay.main := Replay.Returned;
                    Replay.killing := [] |} (Some 1%Z) None)) _)).
    right. left. exists 1%Z. split; [reflexivity | discriminate].
Defined.

(** C5 on the default token. *)
Lemma plain_placeholder_is_substituted_literally_witness :
  plain "@PROJECT_ROOT@" = true /\
  dollar_free "/proj" = true /\
  RegExp.replace_global "@PROJECT_ROOT@" "/proj" open_line
    = Some (literal_substitution "@PROJECT_ROOT@" "/proj" open_line).
Proof.
  split; [reflexivity|]. split; [reflexivity|].
  exact (proj1 (plain_placeholder_is_substituted_literally
                  "@PROJECT_ROOT@" "/proj" open_line eq_refl eq_refl)).
Defined.

(** C6 on an [updateOpen] whose file is missing, after a first request. *)
Lemma bad_line_reported_then_fatal_or_skipped_witness :
  Reader.blank updateOpen_line = false /\
  Reader.read_fails JSON_parse RegExp_replace (readFile []) readFd "/proj"
    (Reader.finally Reader.initial) updateOpen_line /\
  on_line [] "/proj" true (Reader.finally Reader.initial) updateOpen_line
    = ([BadInput updateOpen_line], Reader.Exit 2) /\
  on_line [] "/proj" false (Reader.finally Reader.initial) updateOpen_line
    = ([BadInput updateOpen_line],
       Reader.Continue (Reader.finally (Reader.finally Reader.initial))).
Proof.
  assert (Hfails : Reader.read_fails JSON_parse RegExp_replace (readFile []) readFd
                     "/proj" (Reader.finally Reader.initial) updateOpen_line).
  { split; [left; reflexivity|].
    exists (js "{'seq':3,'command':'updateOpen','arguments':{'openFiles':[{'file':'/proj/gone.ts'}]}}"),
      updateOpen_request.
    split; [vm_compute; reflexivity|]. split; [vm_compute; reflexivity|].
    exists "updateOpen", "file",
      (JObj [("openFiles", JArr [JObj [("file", JStr "/proj/gone.ts")]])]),
      [JObj [("file", JStr "/proj/gone.ts")]],
      (JObj [("file", JStr "/proj/gone.ts")]),
      (JStr "/proj/gone.ts").
    repeat split; try reflexivity.
    - left. split; reflexivity.
    - left. reflexivity. }
  destruct (bad_line_reported_then_fatal_or_skipped JSON_parse RegExp_replace
              (readFile []) readFd "/proj" (Reader.finally Reader.initial)
              updateOpen_line [] eq_refl (or_intror Hfails))
    as (Hu & _ & Hi & _).
  split; [reflexivity|]. split; [exact Hfails|]. split; [exact Hu | exact Hi].
Defined.

(** C7 on a trace of one request. *)
Lemma exit_sentinel_closes_interactive_trace_witness :
  Reader.emitted false
    {| Reader.rootDirPlaceholder := JStr "@PROJECT_ROOT@";
       Reader.serverArgs := JArr [JStr "--disableAutomaticTypingAcquisition"];
       Reader.firstLine := false;
       Reader.sawExit := false;
       Reader.requests := [open_request] |}
  = [open_request; JObj [("seq", JNum 999999%float); ("command", JStr "exit")]] /\
  Reader.emitted true
    {| Reader.rootDirPlaceholder := JStr "@PROJECT_ROOT@";
       Reader.serverArgs := JArr [JStr "--disableAutomaticTypingAcquisition"];
       Reader.firstLine := false;
       Reader.sawExit := false;
       Reader.requests := [open_request] |}
  = [open_request].
Proof.
  destruct (exit_sentinel_closes_interactive_trace JSON_parse RegExp_replace
              (readFile []) readFd "/proj" [open_line] []
              {| Reader.rootDirPlaceholder := JStr "@PROJECT_ROOT@";
                 Reader.serverArgs := JArr [JStr "--disableAutomaticTypingAcquisition"];
                 Reader.firstLine := false;
                 Reader.sawExit := false;
                 Reader.requests := [open_request] |})
    as [Hi Hu].
  split.
  - destruct Hi as (_ & _ & Hlist & _); [vm_compute; reflexivity| |exact Hlist].
    constructor; [reflexivity | constructor].
  - apply Hu. vm_compute. reflexivity.
Defined.

(** C8 on a run of one request. *)
Lemma unattended_shutdown_after_last_request_witness :
  Replay.step true (awaiting open_request) (Replay.Resolved ok_response)
    = ([ExitOrKill 5000],
       Replay.Running
         {| Replay.exitRequested := true;
            Replay.main := Replay.AwaitFinalShutdown;
            Replay.killing := [] |}) /\
  Driver.replay true [open_request] (map Replay.Resolved [ok_response])
    = ([Message open_request; ExitOrKill 5000],
       Replay.Running
         {| Replay.exitRequested := true;
            Replay.main := Replay.AwaitFinalShutdown;
            Replay.killing := [] |}).
Proof.
  assert (Hread : Forall Replay.readable [open_request]).
  { constructor; [exists (JStr "open"); reflexivity | constructor]. }
  assert (Hok : Forall (fun v => Replay.unsuccessful v = Some false) [ok_response]).
  { constructor; [reflexivity | constructor]. }
  destruct (unattended_shutdown_after_last_request (awaiting open_request)
              open_request ok_response [open_request] [ok_response]
              eq_refl eq_refl Hread Hok eq_refl)
    as (Hstep & Hrun & _).
  split; [exact Hstep | exact Hrun].
Defined.

(** C9 on an [updateOpen] without arguments, as the first line. *)
Lemma request_without_openFiles_is_bad_input_witness :
  on_line [] "/proj" true Reader.initial (js "{'seq':3,'command':'updateOpen'}")
    = ([BadInput (js "{'seq':3,'command':'updateOpen'}")], Reader.Exit 2) /\
  on_line [] "/proj" false Reader.initial (js "{'seq':3,'command':'updateOpen'}")
    = ([BadInput (js "{'seq':3,'command':'updateOpen'}")],
       Reader.Continue (Reader.finally Reader.initial)).
Proof.
  destruct (request_without_openFiles_is_bad_input JSON_parse RegExp_replace
              (readFile []) readFd "/proj" Reader.initial
              (js "{'seq':3,'command':'updateOpen'}")
              (js "{'seq':3,'command':'updateOpen'}") "updateOpen"
              (JObj [("seq", JNum 3%float); ("command", JStr "updateOpen")]))
    as (_ & Hu & Hi & _).
  - reflexivity.
  - right.
    exists (JObj [("seq", JNum 3%float); ("command", JStr "updateOpen")]),
      (JStr "updateOpen").
    repeat split; vm_compute; reflexivity.
  - vm_compute. reflexivity.
  - vm_compute. reflexivity.
  - reflexivity.
  - left. reflexivity.
  - left. exists JUndefined. split; [reflexivity | left; reflexivity].
  - split; [exact Hu | exact Hi].
Defined.

(** C10 on a line without command, after a first request. *)
Lemma commandless_line_after_first_is_a_request_witness :
  on_line [] "/proj" true (Reader.finally Reader.initial) (js "{'seq':7}")
  = ([], Reader.Continue
           {| Reader.rootDirPlaceholder := JStr "@PROJECT_ROOT@";
              Reader.serverArgs := JArr [JStr "--disableAutomaticTypingAcquisition"];
              Reader.firstLine := false;
              Reader.sawExit := false;
              Reader.requests := [JObj [("seq", JNum 7%float)]] |}).
Proof.
  exact (proj1 (commandless_line_after_first_is_a_request JSON_parse RegExp_replace
                  (readFile []) readFd "/proj" true (Reader.finally Reader.initial)
                  (js "{'seq':7}") (js "{'seq':7}") [("seq", JNum 7%float)]
                  eq_refl eq_refl eq_refl eq_refl eq_refl)).
Defined.

End Examples.

(** * Further properties of the code *)

(** ** Paths *)

Section PathFacts.

Import Paths.

Lemma slashes_from (s : string) :
  forall before,
    RegExp.replace_from backslashes "/" before s 0 = map_string slash s.
Proof.
  induction s as [|c s IH]; intros before; [reflexivity|].
  cbn [RegExp.replace_from map_string]. unfold backslashes, slash.
  cbn [RegExp.match_here].
  destruct (Ascii.eqb c backslash); cbn; rewrite IH; reflexivity.
Qed.

Lemma map_slash_clean (s : string) :
  RegExp.mem_ascii backslash (map_string slash s) = false /\
  String.length (map_string slash s) = String.length s.
Proof.
  induction s as [|c s [IHm IHl]]; [split; reflexivity|].
  cbn [map_string RegExp.mem_ascii String.length].
  rewrite IHm, IHl, orb_false_r. split; [|reflexivity].
  unfold slash. destruct (Ascii.eqb c backslash) eqn:Hc.
  - reflexivity.
  - rewrite Ascii.eqb_sym. exact Hc.
Qed.

Lemma map_slash_fixed (s : string) :
  RegExp.mem_ascii backslash s = false -> map_string slash s = s.
Proof.
  induction s as [|c s IH]; [reflexivity|].
  cbn [map_string RegExp.mem_ascii].
  intros H. apply orb_false_iff in H. destruct H as [Hc Hs].
  rewrite (IH Hs). unfold slash. rewrite Ascii.eqb_sym, Hc. reflexivity.
Qed.

(** X1.  [canonicalizePath] turns every backslash of the resolved path into
    a slash and changes nothing else: the result has the length of the
    resolved path and no backslash, it is the resolved path itself when
    that has no backslash, and canonicalizing changes it no more when
    [path.resolve] leaves it alone. *)
Theorem canonicalizePath_turns_backslashes
  (resolve : string -> string) (p : string) :
  canonicalizePath resolve p = map_string slash (resolve p) /\
  String.length (canonicalizePath resolve p) = String.length (resolve p) /\
  RegExp.mem_ascii backslash (canonicalizePath resolve p) = false /\
  (RegExp.mem_ascii backslash (resolve p) = false ->
   canonicalizePath resolve p = resolve p) /\
  (resolve (canonicalizePath resolve p) = canonicalizePath resolve p ->
   canonicalizePath resolve (canonicalizePath resolve p)
     = canonicalizePath resolve p).
Proof.
  unfold canonicalizePath. rewrite slashes_from.
  destruct (map_slash_clean (resolve p)) as [Hclean Hlen].
  repeat split; try assumption.
  - apply map_slash_fixed.
  - intros Hfix. rewrite slashes_from, Hfix.
    apply map_slash_fixed. assumption.
Qed.

End PathFacts.

(** ** More on reading the trace *)

Section MoreReaderFacts.

Variable JSON_parse : string -> option value.
Variable RegExp_replace : value -> string -> string -> option string.
Variable readFile : string -> option string.
Variable readFd : float -> option string.
Variable testDir : string.

Local Abbreviation readFileSync := (Reader.readFileSync readFile readFd).
Local Abbreviation read_into := (Reader.read_into readFile readFd).
Local Abbreviation augment := (Reader.augment readFile readFd).
Local Abbreviation prepare := (Reader.prepare readFile readFd).
Local Abbreviation header := (Reader.header JSON_parse).
Local Abbreviation enqueue := (Reader.enqueue readFile readFd).
Local Abbreviation try_block :=
  (Reader.try_block JSON_parse RegExp_replace readFile readFd testDir).
Local Abbreviation on_line :=
  (Reader.on_line JSON_parse RegExp_replace readFile readFd testDir).
Local Abbreviation read_lines :=
  (Reader.read_lines JSON_parse RegExp_replace readFile readFd testDir).

Lemma enqueue_settings (u : bool) (st st' : Reader.parser) (request : value) :
  enqueue u st request = Some st' ->
  Reader.rootDirPlaceholder st' = Reader.rootDirPlaceholder st /\
  Reader.serverArgs st' = Reader.serverArgs st /\
  Reader.firstLine st' = Reader.firstLine st.
Proof.
  unfold Reader.enqueue.
  destruct (prepare request) as [r|]; simpl; [|discriminate].
  destruct (get r "command"); simpl; [|discriminate].
  intros [= <-]. repeat split.
Qed.

Lemma on_line_settings (u : bool) (st st' : Reader.parser) (line : string)
  (out : list effect) :
  on_line u st line = (out, Reader.Continue st') ->
  Reader.firstLine st' = false /\
  (Reader.firstLine st = false ->
   Reader.rootDirPlaceholder st' = Reader.rootDirPlaceholder st /\
   Reader.serverArgs st' = Reader.serverArgs st).
Proof.
  unfold Reader.on_line.
  destruct (try_block u st line) as [st1|] eqn:Htry.
  - intros [= _ <-]. split; [reflexivity|]. intros Hfirst.
    revert Htry. unfold Reader.try_block, Reader.header. rewrite Hfirst.
    destruct (Reader.blank line); [intros [= <-]; split; reflexivity|].
    simpl.
    destruct (RegExp_replace _ testDir line) as [text|]; simpl; [|discriminate].
    destruct (JSON_parse text) as [parsed|]; simpl; [|discriminate].
    intros Henq. apply enqueue_settings in Henq.
    destruct Henq as (Hp & Ha & _). simpl. auto.
  - destruct u; [discriminate|]. intros [= _ <-]. split; [reflexivity|]. auto.
Qed.

Lemma read_lines_settings (u : bool) (lines : list string) :
  forall (st st' : Reader.parser) (out : list effect),
    Reader.firstLine st = false ->
    read_lines u st lines = (out, Reader.Continue st') ->
    Reader.rootDirPlaceholder st' = Reader.rootDirPlaceholder st /\
    Reader.serverArgs st' = Reader.serverArgs st /\
    Reader.firstLine st' = false.
Proof.
  induction lines as [|line lines IH]; simpl; intros st st' out Hfirst.
  - intros [= _ <-]. auto.
  - destruct (on_line u st line) as [o [st1|status]] eqn:Hon; [|discriminate].
    destruct (read_lines u st1 lines) as [o' r] eqn:Hrest.
    intros [= _ ->].
    destruct (on_line_settings _ _ _ _ _ Hon) as [Hf1 Hkeep].
    destruct (Hkeep Hfirst) as [Hp Ha].
    destruct (IH st1 st' o' Hf1 Hrest) as (Hp' & Ha' & Hf').
    rewrite Hp', Ha', Hp, Ha. auto.
Qed.

(** X2.  Only the first line handled can set the placeholder and the server
    arguments: when the lines are read through, the two are what the
    handler left after the first line, whatever the later lines hold, and
    first-line detection is over. *)
Theorem settings_are_those_of_the_first_line
  (u : bool) (line : string) (rest : list string)
  (st st' : Reader.parser) (out : list effect) :
  read_lines u st (line :: rest) = (out, Reader.Continue st') ->
  exists out1 st1,
    on_line u st line = (out1, Reader.Continue st1) /\
    Reader.rootDirPlaceholder st' = Reader.rootDirPlaceholder st1 /\
    Reader.serverArgs st' = Reader.serverArgs st1 /\
    Reader.firstLine st' = false.
Proof.
  simpl.
  destruct (on_line u st line) as [o [st1|status]] eqn:Hon; [|discriminate].
  destruct (read_lines u st1 rest) as [o' r] eqn:Hrest.
  intros [= _ ->]. exists o, st1. split; [reflexivity|].
  destruct (on_line_settings _ _ _ _ _ Hon) as [Hf1 _].
  apply (read_lines_settings u rest st1 st' o' Hf1 Hrest).
Qed.

(** X3.  The first line handled is taken for the header whenever its
    [command] is falsy, not only when it is absent: a first request whose
    command is the empty string, [0], [false] or [null] sets the placeholder
    and the server arguments it names (none: the defaults stay) and yields
    no request, in both modes. *)
Theorem first_line_with_falsy_command_is_header
  (u : bool) (st : Reader.parser) (line : string) (obj command : value) :
  Reader.firstLine st = true ->
  Reader.blank line = false ->
  JSON_parse line = Some obj ->
  get obj "command" = Some command ->
  truthy command = false ->
  exists p a,
    get obj "rootDirPlaceholder" = Some p /\
    get obj "serverArgs" = Some a /\
    on_line u st line =
      ([], Reader.Continue
             {| Reader.rootDirPlaceholder := coalesce p (Reader.rootDirPlaceholder st);
                Reader.serverArgs := coalesce a (Reader.serverArgs st);
                Reader.firstLine := false;
                Reader.sawExit := Reader.sawExit st;
                Reader.requests := Reader.requests st |}).
Proof.
  intros Hfirst Hblank Hparse Hcmd Hfalsy.
  assert (Hp : exists p, get obj "rootDirPlaceholder" = Some p).
  { destruct obj; simpl in *; try discriminate; eauto. }
  assert (Ha : exists a, get obj "serverArgs" = Some a).
  { destruct obj; simpl in *; try discriminate; eauto. }
  destruct Hp as [p Hp]. destruct Ha as [a Ha]. exists p, a.
  split; [assumption|]. split; [assumption|].
  unfold Reader.on_line, Reader.try_block, Reader.header.
  rewrite Hblank, Hfirst, Hparse. simpl. rewrite Hcmd. simpl.
  rewrite Hfalsy. simpl. rewrite Hp. simpl. rewrite Ha. reflexivity.
Qed.

(** *** The two modes side by side *)

(** Whether the [try] block throws depends on the state through the
    placeholder and [firstLine] only, and not on the mode. *)
Lemma try_block_throws_alike (u1 u2 : bool) (st1 st2 : Reader.parser)
  (line : string) :
  Reader.rootDirPlaceholder st1 = Reader.rootDirPlaceholder st2 ->
  Reader.firstLine st1 = Reader.firstLine st2 ->
  match try_block u1 st1 line, try_block u2 st2 line with
  | Some a, Some b =>
      Reader.rootDirPlaceholder a = Reader.rootDirPlaceholder b /\
      Reader.firstLine a = Reader.firstLine b
  | None, None => True
  | _, _ => False
  end.
Proof.
  destruct st1 as [p1 a1 f1 s1 r1], st2 as [p2 a2 f2 s2 r2]. simpl.
  intros <- <-. unfold Reader.try_block, Reader.header. simpl.
  destruct (Reader.blank line); [auto|].
  destruct f1.
  - destruct (JSON_parse line) as [obj|]; simpl; [|exact I].
    destruct (get obj "command") as [c|]; simpl; [|exact I].
    destruct (truthy c); simpl.
    + destruct (RegExp_replace _ testDir line) as [text|]; simpl; [|exact I].
      destruct (JSON_parse text) as [parsed|]; simpl; [|exact I].
      unfold Reader.enqueue.
      destruct (prepare parsed) as [r|]; simpl; [|exact I].
      destruct (get r "command"); simpl; [|exact I]. auto.
    + destruct (get obj "rootDirPlaceholder"); simpl; [|exact I].
      destruct (get obj "serverArgs"); simpl; [|exact I]. auto.
  - simpl.
    destruct (RegExp_replace _ testDir line) as [text|]; simpl; [|exact I].
    destruct (JSON_parse text) as [parsed|]; simpl; [|exact I].
    unfold Reader.enqueue.
    destruct (prepare parsed) as [r|]; simpl; [|exact I].
    destruct (get r "command"); simpl; [|exact I]. auto.
Qed.

Lemma read_lines_modes (lines : list string) :
  forall st1 st2 : Reader.parser,
    Reader.rootDirPlaceholder st1 = Reader.rootDirPlaceholder st2 ->
    Reader.firstLine st1 = Reader.firstLine st2 ->
    (exists st', snd (read_lines false st2 lines) = Reader.Continue st') /\
    fst (read_lines true st1 lines) = firstn 1 (fst (read_lines false st2 lines)) /\
    Forall (fun e => exists line, In line lines /\ e = BadInput line)
      (fst (read_lines false st2 lines)) /\
    (fst (read_lines false st2 lines) = [] ->
     exists st', snd (read_lines true st1 lines) = Reader.Continue st') /\
    (fst (read_lines false st2 lines) <> [] ->
     snd (read_lines true st1 lines) = Reader.Exit 2).
Proof.
  induction lines as [|line lines IH]; intros st1 st2 Hp Hf.
  - simpl. repeat split; eauto. intros H. contradiction H. reflexivity.
  - pose proof (try_block_throws_alike true false st1 st2 line Hp Hf) as Halike.
    cbn [Reader.read_lines]. unfold Reader.on_line.
    destruct (try_block true st1 line) as [a|];
      destruct (try_block false st2 line) as [b|]; try contradiction.
    + destruct Halike as [Hp' Hf'].
      destruct (IH (Reader.finally a) (Reader.finally b) Hp' eq_refl)
        as ((st' & Hc) & Hout & Hall & Hnone & Hsome).
      destruct (read_lines true (Reader.finally a) lines) as [ou ru].
      destruct (read_lines false (Reader.finally b) lines) as [oi ri].
      simpl in *. repeat split; eauto.
      eapply Forall_impl; [|exact Hall].
      intros e (l & Hin & He). exists l. auto.
    + destruct (IH (Reader.finally st1) (Reader.finally st2) Hp eq_refl)
        as ((st' & Hc) & _ & Hall & _).
      destruct (read_lines false (Reader.finally st2) lines) as [oi ri].
      simpl in *. repeat split; eauto.
      * constructor; [exists line; auto|].
        eapply Forall_impl; [|exact Hall].
        intros e (l & Hin & He). exists l. auto.
      * discriminate.
Qed.

(** X4.  Reading never stops an interactive driver: every line is handled,
    and each bad one is reported with its text.  An unattended driver
    prints the first of those reports and exits with status 2, and it
    reads the lines through, printing nothing, exactly when the interactive
    driver has nothing to report. *)
Theorem unattended_stops_at_first_bad_line
  (lines : list string) (st : Reader.parser) :
  (exists st', snd (read_lines false st lines) = Reader.Continue st') /\
  Forall (fun e => exists line, In line lines /\ e = BadInput line)
    (fst (read_lines false st lines)) /\
  fst (read_lines true st lines) = firstn 1 (fst (read_lines false st lines)) /\
  (fst (read_lines false st lines) = [] ->
   exists st', snd (read_lines true st lines) = Reader.Continue st') /\
  (fst (read_lines false st lines) <> [] ->
   snd (read_lines true st lines) = Reader.Exit 2).
Proof.
  destruct (read_lines_modes lines st st eq_refl eq_refl)
    as (Hc & Hout & Hall & Hnone & Hsome).
  repeat split; assumption.
Qed.

End MoreReaderFacts.

(** ** The request list *)

Section RequestListFacts.

Variable JSON_parse : string -> option value.
Variable RegExp_replace : value -> string -> string -> option string.
Variable readFile : string -> option string.
Variable readFd : float -> option string.
Variable testDir : string.

Local Abbreviation readFileSync := (Reader.readFileSync readFile readFd).
Local Abbreviation read_into := (Reader.read_into readFile readFd).
Local Abbreviation augment := (Reader.augment readFile readFd).
Local Abbreviation prepare := (Reader.prepare readFile readFd).
Local Abbreviation on_line :=
  (Reader.on_line JSON_parse RegExp_replace readFile readFd testDir).
Local Abbreviation read_lines :=
  (Reader.read_lines JSON_parse RegExp_replace readFile readFd testDir).
Local Abbreviation main :=
  (Driver.main JSON_parse RegExp_replace readFile readFd testDir).
Local Abbreviation filled := (Entries.filled readFileSync).

Lemma read_lines_appends (u : bool) (lines : list string) :
  forall (st st' : Reader.parser) (out : list effect),
    read_lines u st lines = (out, Reader.Continue st') ->
    exists added,
      Reader.requests st' = Reader.requests st ++ added /\
      length added <= length lines /\
      Forall Replay.readable added /\
      (Reader.sawExit st = true -> Reader.sawExit st' = true).
Proof.
  induction lines as [|line lines IH]; simpl; intros st st' out.
  - intros [= _ <-]. exists []. rewrite app_nil_r. repeat split; auto.
  - destruct (on_line u st line) as [o [st1|status]] eqn:Hon; [|discriminate].
    destruct (read_lines u st1 lines) as [o' r] eqn:Hrest.
    intros [= _ ->].
    destruct (IH st1 st' o' Hrest) as (added & Hreqs & Hlen & Hread & Hsaw).
    destruct (on_line_effect _ _ _ _ _ _ _ _ _ _ Hon)
      as [[Hr Hs] | (request & command & Hcmd & Hs & Hr)].
    + exists added. rewrite Hreqs, Hr, Hs in *. repeat split; auto.
    + destruct (negb (Reader.is_exit request) || negb u).
      * exists (request :: added). rewrite Hreqs, Hr, <- app_assoc. simpl.
        repeat split; [lia | constructor; [exists command; exact Hcmd | exact Hread] |].
        intros H. apply Hsaw. rewrite Hs, H. reflexivity.
      * exists added. rewrite Hreqs, Hr. repeat split; auto.
        intros H. apply Hsaw. rewrite Hs, H. reflexivity.
Qed.

(** X5.  Reading only appends to the request list: the requests read before
    stay, in place, each line adds at most one request, every request added
    has properties to read (it is neither [null] nor [undefined]), and an
    exit once seen stays seen. *)
Theorem reading_only_appends
  (u : bool) (lines : list string) (st st' : Reader.parser) (out : list effect) :
  read_lines u st lines = (out, Reader.Continue st') ->
  exists added,
    Reader.requests st' = Reader.requests st ++ added /\
    length added <= length lines /\
    Forall Replay.readable added /\
    (Reader.sawExit st = true -> Reader.sawExit st' = true).
Proof. apply read_lines_appends. Qed.

(** *** Interactive runs *)

Lemma interactive_run_requests_exit (pending : list value) :
  forall (responses : list value) (d : Replay.driver),
    Forall Replay.readable pending ->
    length responses = length pending ->
    snd (Replay.run false (snd (Replay.send_next false d pending))
           (map Replay.Resolved responses))
    = Replay.Running
        {| Replay.exitRequested :=
             Replay.exitRequested d || existsb Reader.is_exit pending;
           Replay.main := Replay.Returned;
           Replay.killing := Replay.killing d |}.
Proof.
  induction pending as [|request rest IH]; intros responses d Hread Hlen.
  - destruct responses; [|discriminate]. simpl.
    rewrite orb_false_r. reflexivity.
  - destruct responses as [|v vs]; [discriminate|].
    inversion Hread as [|? ? Hr Hrest]; subst.
    destruct (send_next_readable false d request rest Hr)
      as (echo & command & Hcmd & _ & _ & ->).
    injection Hlen as Hlen.
    set (d1 := {| Replay.exitRequested :=
                    Replay.exitRequested d || is_str command "exit";
                  Replay.main := Replay.AwaitMessage request rest;
                  Replay.killing := Replay.killing d |}).
    specialize (IH vs d1 Hrest Hlen).
    simpl fst; simpl snd. simpl map. cbn [Replay.run Replay.step].
    unfold Replay.on_resolved, Replay.on_response. simpl Replay.main.
    assert (Hexit : Reader.is_exit request = is_str command "exit").
    { unfold Reader.is_exit. rewrite Hcmd. reflexivity. }
    destruct (unsuccessful_total v) as [[|] ->];
      destruct (Replay.send_next false d1 rest) as [out p]; simpl in IH;
      destruct (Replay.run false p (map Replay.Resolved vs)) as [out' p'];
      simpl in *; rewrite IH, Hexit, orb_assoc; reflexivity.
Qed.

(** X6.  The requests of an interactive run always hold an exit, the
    trace's own or the one appended, so a run whose requests are all
    answered ends with [main] returned and the shutdown marked as
    requested: the close of the server is then reported as "Shut down". *)
Theorem interactive_run_ends_with_exit_requested
  (lines : list string) (responses : list value)
  (out : list effect) (st : Reader.parser) :
  read_lines false Reader.initial lines = (out, Reader.Continue st) ->
  length responses = length (Reader.emitted false st) ->
  existsb Reader.is_exit (Reader.emitted false st) = true /\
  snd (main false lines (map Replay.Resolved responses))
    = Replay.Running
        {| Replay.exitRequested := true;
           Replay.main := Replay.Returned;
           Replay.killing := [] |} /\
  forall code signal,
    Replay.step false
      {| Replay.exitRequested := true;
         Replay.main := Replay.Returned;
         Replay.killing := [] |} (Replay.Close code signal)
    = ([CloseReport ShutDown
          match code with
          | Some c => if Replay.code_set code then WithCode c
                      else Replay.signal_detail signal
          | None => Replay.signal_detail signal
          end],
       Replay.Running
         {| Replay.exitRequested := true;
            Replay.main := Replay.Returned;
            Replay.killing := [] |}).
Proof.
  intros Hread Hlen.
  pose proof (interactive_sawExit _ _ _ _ _ lines Reader.initial st out
                eq_refl Hread) as Hsaw.
  destruct (read_lines_appends false lines _ _ _ Hread)
    as (added & Hreqs & _ & Hreadable & _).
  simpl in Hreqs. subst added.
  assert (Hexit : existsb Reader.is_exit (Reader.emitted false st) = true).
  { unfold Reader.emitted. rewrite Hsaw.
    destruct (existsb Reader.is_exit (Reader.requests st)) eqn:He; simpl.
    - exact He.
    - rewrite existsb_app, He. reflexivity. }
  assert (Hready : Forall Replay.readable (Reader.emitted false st)).
  { unfold Reader.emitted.
    destruct (negb (Reader.sawExit st) && negb false); [|exact Hreadable].
    apply Forall_app. split; [exact Hreadable|].
    constructor; [exists (JStr "exit"); reflexivity | constructor]. }
  split; [exact Hexit|]. split.
  - unfold Driver.main. rewrite Hread.
    unfold Driver.replay, Replay.start.
    pose proof (interactive_run_requests_exit _ responses Replay.launched
                  Hready Hlen) as Hrun.
    destruct (Replay.send_next false Replay.launched (Reader.emitted false st))
      as [o1 p1].
    simpl in Hrun.
    destruct (Replay.run false p1 (map Replay.Resolved responses)) as [o2 p2].
    simpl in *. rewrite Hrun, Hexit. reflexivity.
  - intros code signal. reflexivity.
Qed.

(** *** Completing a request *)

Lemma lookup_upsert_same (k : string) (x : value) (props : list (string * value)) :
  lookup k (upsert k x props) = x.
Proof.
  induction props as [|[k0 v0] props IH]; simpl.
  - rewrite String.eqb_refl. reflexivity.
  - destruct (String.eqb_spec k k0) as [-> | Hne]; simpl.
    + rewrite String.eqb_refl. reflexivity.
    + destruct (String.eqb_spec k k0); [contradiction | exact IH].
Qed.

Lemma read_into_filled (pathKey contentKey : string) (entry : value)
  (path : value) (contents : string) :
  get entry pathKey = Some path ->
  readFileSync path = Some contents ->
  read_into pathKey contentKey entry = Some (set entry contentKey (JStr contents)) /\
  filled pathKey contentKey entry (set entry contentKey (JStr contents)).
Proof.
  intros Hpath Hread. unfold Reader.read_into.
  rewrite Hpath; simpl. rewrite Hread; simpl. split; [reflexivity|].
  exists path, contents. repeat split; try assumption.
  - destruct entry; simpl in *; try discriminate;
      try (injection Hpath as <-; simpl in Hread; discriminate).
    rewrite lookup_upsert_same. reflexivity.
  - intros k Hk. apply get_set_other. assumption.
Qed.

Lemma mapM_read_into (pathKey contentKey : string) (entries : list value) :
  Forall (fun entry => exists path contents,
            get entry pathKey = Some path /\ readFileSync path = Some contents)
    entries ->
  exists entries',
    mapM (read_into pathKey contentKey) entries = Some entries' /\
    Forall2 (filled pathKey contentKey) entries entries'.
Proof.
  induction 1 as [|entry entries (path & contents & Hpath & Hread) _
                   (entries' & Hmap & Hall)].
  - exists []. split; [reflexivity | constructor].
  - destruct (read_into_filled pathKey contentKey entry path contents Hpath Hread)
      as [Hinto Hfilled].
    exists (set entry contentKey (JStr contents) :: entries').
    simpl. rewrite Hinto; simpl. rewrite Hmap; simpl.
    split; [reflexivity | constructor; assumption].
Qed.

(** X7.  An [updateOpen] ([applyChangedToOpenFiles]) request whose
    [arguments.openFiles] is an array of entries with a readable [file]
    ([fileName]) is completed: every entry, in place and in order, gets the
    text of its file as [fileContent] ([content]), whatever it held there
    before, and keeps its other properties; the request keeps every
    property but [arguments], and [arguments] every one but [openFiles]. *)
Theorem openFiles_are_filled_with_file_contents
  (command pathKey contentKey : string)
  (request arguments : value) (entries : list value) :
  (command = "updateOpen" /\ pathKey = "file" /\ contentKey = "fileContent") \/
  (command = "applyChangedToOpenFiles" /\ pathKey = "fileName"
   /\ contentKey = "content") ->
  get request "command" = Some (JStr command) ->
  get request "arguments" = Some arguments ->
  get arguments "openFiles" = Some (JArr entries) ->
  Forall (fun entry => exists path contents,
            get entry pathKey = Some path /\ readFileSync path = Some contents)
    entries ->
  exists request' arguments' entries',
    prepare request = Some request' /\
    get request' "arguments" = Some arguments' /\
    get arguments' "openFiles" = Some (JArr entries') /\
    Forall2 (filled pathKey contentKey) entries entries' /\
    (forall k, k <> "arguments" -> get request' k = get request k) /\
    (forall k, k <> "openFiles" -> get arguments' k = get arguments k).
Proof.
  intros Hkind Hcmd Hargs Hfiles Hentries.
  destruct (mapM_read_into pathKey contentKey entries Hentries)
    as (entries' & Hmap & Hfilled).
  assert (Haug : augment pathKey contentKey request
                 = Some (set request "arguments"
                           (set arguments "openFiles" (JArr entries')))).
  { unfold Reader.augment. rewrite Hargs; simpl. rewrite Hfiles; simpl.
    rewrite Hmap. reflexivity. }
  assert (Hobj : exists props, request = JObj props).
  { destruct request; simpl in *; try discriminate; eauto;
      injection Hargs as <-; discriminate. }
  assert (Hobj' : exists props, arguments = JObj props).
  { destruct arguments; simpl in *; try discriminate; eauto. }
  destruct Hobj as [props ->]. destruct Hobj' as [aprops ->].
  exists (set (JObj props) "arguments" (set (JObj aprops) "openFiles" (JArr entries'))),
    (set (JObj aprops) "openFiles" (JArr entries')), entries'.
  assert (Hprep : prepare (JObj props)
                  = Some (set (JObj props) "arguments"
                            (set (JObj aprops) "openFiles" (JArr entries')))).
  { assert (Hl : lookup "command" props = JStr command).
    { simpl in Hcmd. injection Hcmd as ->. reflexivity. }
    unfold Reader.prepare. cbn [get]. rewrite Hl. cbn [bind].
    destruct Hkind as [(-> & -> & ->) | (-> & -> & ->)].
    - simpl is_str. cbv iota. rewrite Haug. cbn [bind set get].
      rewrite lookup_upsert_other by discriminate. rewrite Hl. reflexivity.
    - simpl is_str. cbv iota. cbn [bind get]. rewrite Hl.
      simpl is_str. cbv iota. exact Haug. }
  split; [exact Hprep|]. repeat split.
  - simpl. rewrite lookup_upsert_same. reflexivity.
  - simpl. rewrite lookup_upsert_same. reflexivity.
  - exact Hfilled.
  - intros k Hk. apply get_set_other. assumption.
  - intros k Hk. apply get_set_other. assumption.
Qed.

End RequestListFacts.

(** ** Every run of the driver *)

Section RunFacts.

Import Replay Transitions.

Lemma send_next_transition (u : bool) (d : driver) (request : value)
  (pending : list value) (pre : list effect) :
  main d = AwaitMessage request pending ->
  Forall (fun e => quiet_effect e = true) pre ->
  (u = true -> pre = []) ->
  transition u d (pre ++ fst (send_next u d pending)) (snd (send_next u d pending)).
Proof.
  intros Hmain Hpre Hu. destruct pending as [|next rest].
  - destruct u; simpl.
    + rewrite (Hu eq_refl). apply t_last_unattended with request; auto.
    + rewrite app_nil_r. apply t_last_interactive with request; auto.
  - unfold send_next. destruct (get next "command") as [command|] eqn:Hcmd.
    + simpl fst; simpl snd. rewrite app_assoc.
      apply t_next with request; auto.
      apply Forall_app. split; [assumption|].
      destruct u; repeat constructor.
    + simpl. apply t_thrown.
      * apply Forall_app. split; [assumption | repeat constructor].
      * left. apply in_or_app. right. left. reflexivity.
Qed.

(** Every step of the driver is a transition. *)
Lemma step_transition (u : bool) (d : driver) (x : delivery)
  (out : list effect) (p : process) :
  step u d x = (out, p) -> transition u d out p.
Proof.
  destruct x as [v| |code signal|err|e|n|]; simpl.
  - unfold on_resolved. destruct (main d) as [request rest| | |] eqn:Hmain.
    + unfold on_response.
      destruct (unsuccessful v) as [[|]|] eqn:Hv.
      * destruct u.
        -- intros [= <- <-]. apply t_shutdown with request rest; auto.
        -- pose proof (send_next_transition false d request rest
                         [Inspect request; Inspect v] Hmain) as Ht.
           destruct (send_next false d rest) as [o q]. intros [= <- <-].
           apply Ht; [repeat constructor | discriminate].
      * pose proof (send_next_transition u d request rest [] Hmain) as Ht.
        destruct (send_next u d rest) as [o q]. intros [= <- <-].
        apply Ht; [constructor | reflexivity].
      * intros [= <- <-]. apply t_thrown; [repeat constructor | left; left; reflexivity].
    + intros [= <- <-]. apply t_failed. assumption.
    + destruct (truthy v); intros [= <- <-].
      * apply t_returned. assumption.
      * apply t_forced. assumption.
    + intros [= <- <-]. apply t_stay. constructor.
  - unfold on_rejected. destruct (main d) eqn:Hmain; intros [= <- <-].
    + apply t_thrown; [repeat constructor | left; left; reflexivity].
    + apply t_failed. assumption.
    + apply t_thrown; [repeat constructor | left; left; reflexivity].
    + apply t_stay. constructor.
  - unfold on_close. intros [= <- <-].
    assert (Hq : Forall (fun e => quiet_effect e = true)
                   (if negb u || negb (exitRequested d) || code_set code
                       || signal_set signal
                    then [close_report (exitRequested d) code signal] else [])).
    { destruct (negb u || negb (exitRequested d) || code_set code
                || signal_set signal); repeat constructor. }
    destruct u; simpl andb.
    + destruct (exitRequested d) eqn:Hflag; simpl negb; cbv iota.
      * apply t_stay. exact Hq.
      * simpl. apply t_closed; auto.
    + apply t_stay. exact Hq.
  - unfold on_communicationError. destruct u; intros [= <- <-].
    + apply t_kill; [reflexivity|]. left. eauto.
    + apply t_stay. repeat constructor.
  - unfold on_event.
    destruct (_ <- get e "event" ;; _) as [[projectName|]|].
    + destruct u; intros [= <- <-].
      * apply t_kill; [reflexivity|]. right. eauto.
      * apply t_stay. repeat constructor.
    + intros [= <- <-]. apply t_stay. constructor.
    + intros [= <- <-].
      apply t_thrown; [repeat constructor | right; left; reflexivity].
  - unfold on_killed. destruct (nth_error (killing d) n) eqn:Hn; intros [= <- <-].
    + apply t_killed with n. assumption.
    + apply t_stay. constructor.
  - intros [= <- <-]. apply t_empty.
Qed.

(** The first turn of the loop is the step that a settlement takes from
    [before_first]. *)
Lemma replay_from_before_first (u : bool) (requests : list value)
  (xs : list delivery) :
  Driver.replay u requests xs
  = run u (Running (before_first requests)) (Resolved JUndefined :: xs).
Proof. reflexivity. Qed.

(** *** Invariants of a run *)

Section Invariant.

Variable u : bool.
Variable Inv : list effect -> driver -> Prop.
Hypothesis transition_keeps :
  forall acc d out d',
    Inv acc d -> transition u d out (Running d') -> Inv (acc ++ out) d'.

(** An invariant of the transitions holds when a run stops short of an
    exit, and held before the step that exits. *)
Lemma run_keeps (xs : list delivery) :
  forall acc d out p,
    Inv acc d ->
    run u (Running d) xs = (out, p) ->
    match p with
    | Running d' => Inv (acc ++ out) d'
    | Exited status =>
        exists acc' d' out',
          Inv acc' d' /\ transition u d' out' (Exited status) /\
          acc ++ out = acc' ++ out'
    end.
Proof.
  induction xs as [|x xs IH]; intros acc d out p HI.
  - simpl. intros [= <- <-]. rewrite app_nil_r. assumption.
  - simpl. destruct (step u d x) as [o p1] eqn:Hstep.
    apply step_transition in Hstep.
    destruct p1 as [d1|status].
    + destruct (run u (Running d1) xs) as [o' p2] eqn:Hrun.
      intros [= <- <-].
      specialize (IH (acc ++ o) d1 o' p2 (transition_keeps _ _ _ _ HI Hstep) Hrun).
      rewrite app_assoc. exact IH.
    + destruct xs; simpl; intros [= <- <-]; rewrite app_nil_r;
        exists acc, d, o; auto.
Qed.

End Invariant.

End RunFacts.

Section RunProperties.

Import Replay Transitions.

Lemma quiet_sent (out : list effect) :
  Forall (fun e => quiet_effect e = true) out -> sent out = [].
Proof.
  induction 1 as [|e out He _ IH]; [reflexivity|].
  destruct e; simpl in *; try discriminate; assumption.
Qed.

Lemma quiet_forces (out : list effect) :
  Forall (fun e => quiet_effect e = true) out ->
  existsb Effects.forces out = false /\ existsb Effects.asks out = false.
Proof.
  induction 1 as [|e out He _ [IHf IHa]]; [split; reflexivity|].
  destruct e; simpl in *; try discriminate; auto.
Qed.

(** Rewrites with what is known of quiet outputs. *)
Ltac use_quiet :=
  repeat match goal with
  | H : Forall (fun e => quiet_effect e = true) ?o |- _ =>
      let Hs := fresh "Hs" in
      let Hf := fresh "Hf" in
      let Ha := fresh "Ha" in
      pose proof (quiet_sent o H) as Hs;
      destruct (quiet_forces o H) as [Hf Ha];
      rewrite ?Hs, ?Hf, ?Ha; clear H
  end.

(** A step that exits sends nothing. *)
Lemma exit_sends_nothing (u : bool) (d : driver) (out : list effect) (status : Z) :
  transition u d out (Exited status) -> sent out = [].
Proof.
  intros Ht. inversion Ht; subst; try reflexivity.
  apply quiet_sent. assumption.
Qed.

(** *** The order of the requests *)

Lemma sent_so_far_kept (u : bool) (requests : list value) :
  forall acc d out d',
    sent_so_far requests acc d -> transition u d out (Running d') ->
    sent_so_far requests (acc ++ out) d'.
Proof.
  unfold sent_so_far. intros acc d out d' HI Ht.
  inversion Ht; subst; simpl; rewrite sent_app.
  - rewrite (quiet_sent out) by assumption. rewrite app_nil_r. exact HI.
  - match goal with
    | H : _ \/ _ |- _ =>
        destruct H as [[[err ->] _] | [[name ->] _]]; simpl;
          rewrite app_nil_r; exact HI
    end.
  - match goal with H : main d = _ |- _ => rewrite H in HI end.
    simpl. rewrite app_nil_r. exact HI.
  - match goal with H : main d = _ |- _ => rewrite H in HI end.
    simpl. rewrite app_nil_r. eauto.
  - match goal with H : main d = _ |- _ => rewrite H in HI end.
    rewrite sent_app, (quiet_sent pre) by assumption. simpl.
    rewrite HI, <- app_assoc. reflexivity.
  - match goal with H : main d = _ |- _ => rewrite H in HI end.
    simpl. exists []. rewrite app_nil_r. exact HI.
  - match goal with H : main d = _ |- _ => rewrite H in HI end.
    rewrite (quiet_sent out) by assumption. exists [].
    rewrite !app_nil_r in *. exact HI.
Qed.

Lemma step_sends_on_resolved (u : bool) (d : driver) (x : delivery) :
  length (sent (fst (step u d x))) <= (if Effects.is_resolved x then 1 else 0).
Proof.
  destruct (step u d x) as [out p] eqn:Hstep. simpl.
  pose proof (step_transition _ _ _ _ _ Hstep) as Ht.
  assert (Hone : length (sent out) <= 1).
  { inversion Ht; subst; simpl; try lia;
      try (rewrite (quiet_sent out) by assumption; simpl; lia).
    - match goal with
      | H : _ \/ _ |- _ =>
          destruct H as [[[err ->] _] | [[name ->] _]]; simpl; lia
      end.
    - rewrite sent_app, (quiet_sent pre) by assumption. simpl. lia. }
  destruct x as [v| |code signal|err|e|n|]; simpl; try exact Hone;
    simpl in Hstep.
  - unfold on_rejected in Hstep.
    destruct (main d); injection Hstep as <- _; simpl; lia.
  - unfold on_close in Hstep. injection Hstep as <- _.
    destruct (negb u || negb (exitRequested d) || code_set code
              || signal_set signal); simpl; lia.
  - unfold on_communicationError in Hstep.
    destruct u; injection Hstep as <- _; simpl; lia.
  - unfold on_event in Hstep.
    destruct (_ <- get e "event" ;; _) as [[projectName|]|];
      [destruct u|..]; injection Hstep as <- _; simpl; lia.
  - unfold on_killed in Hstep.
    destruct (nth_error (killing d) n); injection Hstep as <- _; simpl; lia.
  - injection Hstep as <- _. simpl. lia.
Qed.

Lemma run_sends_on_resolved (u : bool) (xs : list delivery) :
  forall d, length (sent (fst (run u (Running d) xs))) <= count_resolved xs.
Proof.
  unfold count_resolved.
  induction xs as [|x xs IH]; intros d; simpl; [lia|].
  pose proof (step_sends_on_resolved u d x) as Hstep.
  destruct (step u d x) as [out p]. simpl in Hstep.
  destruct p as [d1|status].
  - specialize (IH d1). destruct (run u (Running d1) xs) as [out' p'].
    simpl in *. rewrite sent_app, length_app.
    destruct (Effects.is_resolved x); simpl; lia.
  - assert (Hrun : run u (Exited status) xs = ([], Exited status))
      by (destruct xs; reflexivity).
    rewrite Hrun. simpl. rewrite app_nil_r.
    destruct (Effects.is_resolved x); simpl; lia.
Qed.

(** X8.  Whatever the event loop delivers, in either mode, the requests
    handed to the harness are the first requests of the list, in the order
    of the list, each once; and a request is sent only after the one before
    it has been answered: there are at most as many as settlements
    delivered, plus the first.  (Here and below the events delivered are
    [expected]: those whose project name line 181 can print.) *)
Theorem requests_are_sent_in_order
  (u : bool) (requests : list value) (xs : list delivery) :
  forallb expected xs = true ->
  (exists tail, requests = sent (fst (Driver.replay u requests xs)) ++ tail) /\
  length (sent (fst (Driver.replay u requests xs))) <= S (count_resolved xs).
Proof.
  intros _. rewrite replay_from_before_first. split.
  - destruct (run u (Running (before_first requests)) (Resolved JUndefined :: xs))
      as [out p] eqn:Hrun.
    pose proof (run_keeps u (sent_so_far requests) (sent_so_far_kept u requests)
                  _ [] (before_first requests) out p eq_refl Hrun) as Hkept.
    simpl. destruct p as [d'|status].
    + unfold sent_so_far in Hkept. simpl in Hkept.
      destruct (main d'); eauto.
    + destruct Hkept as (acc' & d' & out' & HI & Ht & Heq).
      simpl in Heq. rewrite Heq, sent_app, (exit_sends_nothing _ _ _ _ Ht).
      rewrite app_nil_r. unfold sent_so_far in HI.
      destruct (main d'); eauto.
  - apply (run_sends_on_resolved u (Resolved JUndefined :: xs)).
Qed.

(** *** Interactive runs force nothing *)

Lemma unforced_kept :
  forall acc d out d',
    unforced acc d -> transition false d out (Running d') ->
    unforced (acc ++ out) d'.
Proof.
  unfold unforced. intros acc d out d' (Hk & Hf & Hm) Ht.
  inversion Ht; subst; try discriminate; rewrite existsb_app, Hf; simpl.
  - destruct (quiet_forces out) as [-> _]; auto.
  - match goal with H : main d = _ |- _ => rewrite H in Hm end. contradiction.
  - rewrite existsb_app. destruct (quiet_forces pre) as [-> _]; auto.
  - destruct (quiet_forces out) as [-> _]; auto.
Qed.

Lemma interactive_replay_forces_nothing (requests : list value)
  (xs : list delivery) :
  existsb Effects.forces (fst (Driver.replay false requests xs)) = false /\
  forall status,
    snd (Driver.replay false requests xs) = Exited status ->
    status = 0%Z \/
    (status = 1%Z /\
     (In Uncaught (fst (Driver.replay false requests xs)) \/
      In UnhandledRejection (fst (Driver.replay false requests xs)))).
Proof.
  rewrite replay_from_before_first.
  destruct (run false (Running (before_first requests)) (Resolved JUndefined :: xs))
    as [out p] eqn:Hrun.
  assert (H0 : unforced [] (before_first requests)) by (repeat split).
  pose proof (run_keeps false unforced unforced_kept _ [] _ out p H0 Hrun) as Hkept.
  simpl. destruct p as [d'|status].
  - destruct Hkept as (_ & Hf & _). split; [exact Hf | discriminate].
  - destruct Hkept as (acc' & d' & out' & (Hk & Hf & Hm) & Ht & Heq).
    simpl in Heq. subst out.
    inversion Ht; subst; try discriminate.
    + match goal with H : nth_error (killing d') _ = Some _ |- _ =>
        rewrite Hk in H; apply nth_error_In in H; destruct H end.
    + rewrite app_nil_r. split; [exact Hf|]. intros s [= <-]. left. reflexivity.
    + match goal with H : main d' = _ |- _ => rewrite H in Hm end. contradiction.
    + match goal with H : main d' = _ |- _ => rewrite H in Hm end. contradiction.
    + split.
      * rewrite existsb_app, Hf. destruct (quiet_forces out') as [-> _]; auto.
      * intros s [= <-]. right. split; [reflexivity|].
        match goal with H : _ \/ _ |- _ => destruct H as [Hin | Hin] end;
          [left | right]; apply in_or_app; right; exact Hin.
Qed.

(** *** A close that ends the driver *)

Lemma asked_is_flagged_kept (u : bool) :
  forall acc d out d',
    asked_is_flagged acc d -> transition u d out (Running d') ->
    asked_is_flagged (acc ++ out) d'.
Proof.
  unfold asked_is_flagged. intros acc d out d' (Hflag & Hk) Ht.
  inversion Ht; subst; simpl; rewrite ?existsb_app; use_quiet;
    simpl; rewrite ?orb_false_r; auto.
  - split; [reflexivity|]. apply Forall_app. split; [exact Hk|].
    constructor; [|constructor].
    match goal with H : _ \/ _ |- _ => destruct H as [[_ ->] | [_ ->]]; auto end.
  - split; [|exact Hk].
    unfold Reader.is_exit.
    match goal with H : get next "command" = _ |- _ => rewrite H end.
    intros H. apply orb_true_iff in H. apply orb_true_iff.
    destruct H as [H | H]; auto.
Qed.

(** X10.  The driver exits with status 3 only when it is unattended and has
    not asked for the end of the server: in the output of such a run there
    is no [exit] request sent, no [exitOrKill] and no [kill].  Each of these
    sets [exitRequested] before the server can close. *)
Theorem status_3_only_before_any_shutdown
  (u : bool) (requests : list value) (xs : list delivery) (out : list effect) :
  forallb expected xs = true ->
  Driver.replay u requests xs = (out, Exited 3) ->
  u = true /\ existsb Effects.asks out = false.
Proof.
  rewrite replay_from_before_first. intros _ Hrun.
  assert (H0 : asked_is_flagged [] (before_first requests)).
  { split; [discriminate | constructor]. }
  destruct (run_keeps u asked_is_flagged (asked_is_flagged_kept u) _ [] _ out _
              H0 Hrun)
    as (acc' & d' & out' & (Hflag & Hk) & Ht & Heq).
  simpl in Heq. subst out.
  inversion Ht; subst.
  - split; [reflexivity|]. rewrite existsb_app. simpl. rewrite orb_false_r.
    destruct (existsb Effects.asks acc') eqn:Ha; [|reflexivity].
    match goal with H : exitRequested d' = false |- _ =>
      rewrite (Hflag eq_refl) in H; discriminate H end.
  - match goal with H : nth_error (killing d') _ = Some _ |- _ =>
      apply nth_error_In in H;
      rewrite Forall_forall in Hk; destruct (Hk _ H); discriminate end.
Qed.

(** *** Why the driver exited *)

Lemma accounted_kept (u : bool) (requests : list value) :
  forall acc d out d',
    accounted requests acc d -> transition u d out (Running d') ->
    accounted requests (acc ++ out) d'.
Proof.
  unfold accounted. intros acc d out d' (Hm & Hk) Ht.
  assert (Hk' : Forall (fun status =>
            (status = 4%Z /\ In Kill (acc ++ out)
             /\ exists name, In (ServiceDisabled name) (acc ++ out)) \/
            (status = 7%Z /\ In Kill (acc ++ out) /\
             exists err, In (CommunicationErrorReport err) (acc ++ out)))
            (killing d)).
  { eapply Forall_impl; [|exact Hk].
    intros status [(Hs & Hkill & name & Hn) | (Hs & Hkill & err & He)];
      [left | right]; repeat split; auto using in_or_app;
      eexists; apply in_or_app; left; eassumption. }
  assert (Hmono : forall k o,
            sent o = [] ->
            match k with
            | AwaitMessage _ rest => requests = sent acc ++ rest
            | AwaitShutdown =>
                In (ExitOrKill 5000) acc /\
                exists response,
                  In (PrintJSON response) acc /\ unsuccessful response = Some true
            | AwaitFinalShutdown => In (ExitOrKill 5000) acc /\ sent acc = requests
            | Returned => True
            end ->
            match k with
            | AwaitMessage _ rest => requests = sent (acc ++ o) ++ rest
            | AwaitShutdown =>
                In (ExitOrKill 5000) (acc ++ o) /\
                exists response,
                  In (PrintJSON response) (acc ++ o)
                  /\ unsuccessful response = Some true
            | AwaitFinalShutdown =>
                In (ExitOrKill 5000) (acc ++ o) /\ sent (acc ++ o) = requests
            | Returned => True
            end).
  { intros k o Hs. destruct k; rewrite ?sent_app, ?Hs, ?app_nil_r; auto.
    - intros (He & response & Hp & Hu).
      split; [apply in_or_app; auto|]. exists response.
      split; [apply in_or_app; auto | exact Hu].
    - intros (He & Hsent). split; [apply in_or_app; auto | exact Hsent]. }
  inversion Ht; subst; simpl.
  - split; [|exact Hk']. apply Hmono; [apply quiet_sent; assumption | exact Hm].
  - split.
    + apply Hmono; [|exact Hm].
      match goal with
      | H : _ \/ _ |- _ => destruct H as [[[err ->] _] | [[name ->] _]]
      end; reflexivity.
    + apply Forall_app. split; [exact Hk'|].
      constructor; [|constructor].
      match goal with
      | H : _ \/ _ |- _ =>
          destruct H as [[[err ->] ->] | [[name ->] ->]]
      end.
      * right. split; [reflexivity|]. split.
        -- apply in_or_app. right. right. left. reflexivity.
        -- exists err. apply in_or_app. right. left. reflexivity.
      * left. split; [reflexivity|]. split.
        -- apply in_or_app. right. right. left. reflexivity.
        -- exists name. apply in_or_app. right. left. reflexivity.
  - split; [exact I | exact Hk'].
  - split; [|exact Hk']. split.
    + apply in_or_app. right. right. left. reflexivity.
    + exists response. split; [|assumption].
      apply in_or_app. right. left. reflexivity.
  - split; [|exact Hk'].
    match goal with H : main d = _ |- _ => rewrite H in Hm end.
    rewrite !sent_app, (quiet_sent pre) by assumption. simpl.
    rewrite Hm, <- app_assoc. reflexivity.
  - split; [|exact Hk'].
    match goal with H : main d = _ |- _ => rewrite H in Hm end.
    split; [apply in_or_app; right; left; reflexivity|].
    rewrite sent_app. simpl. rewrite Hm, !app_nil_r. reflexivity.
  - split; [exact I | exact Hk'].
Qed.

(** X11.  When a run of the replay ends in an exit, its output shows why.
    Status 7 follows a reported communication error and a kill; 4 a
    reported disabled language service and a kill; 5 a printed unsuccessful
    response and an [exitOrKill]; 6 an [exitOrKill] after every request of
    the list was sent; 3 a close reported as unexpected; 1 an exception.
    No other status but 0 occurs. *)
Theorem exit_status_has_its_cause
  (u : bool) (requests : list value) (xs : list delivery)
  (out : list effect) (status : Z) :
  forallb expected xs = true ->
  Driver.replay u requests xs = (out, Exited status) ->
  cause requests out status.
Proof.
  rewrite replay_from_before_first. intros _ Hrun.
  assert (H0 : accounted requests [] (before_first requests)).
  { split; [reflexivity | constructor]. }
  destruct (run_keeps u (accounted requests) (accounted_kept u requests) _ [] _
              out _ H0 Hrun)
    as (acc' & d' & out' & (Hm & Hk) & Ht & Heq).
  simpl in Heq. subst out. unfold cause.
  inversion Ht; subst.
  - right. right. left. split; [reflexivity|]. exists detail.
    apply in_or_app. right. left. reflexivity.
  - match goal with H : nth_error (killing d') _ = Some _ |- _ =>
      apply nth_error_In in H; rewrite Forall_forall in Hk;
      destruct (Hk _ H) as [(-> & Hkill & name & Hn) | (-> & Hkill & err & He)]
    end; rewrite app_nil_r.
    + do 3 right. left. eauto.
    + do 6 right. eauto.
  - left. reflexivity.
  - match goal with H : main d' = _ |- _ => rewrite H in Hm end.
    rewrite app_nil_r. do 4 right. left. split; [reflexivity|]. exact Hm.
  - match goal with H : main d' = _ |- _ => rewrite H in Hm end.
    rewrite app_nil_r. do 5 right. left. split; [reflexivity|]. exact Hm.
  - right. left. split; [reflexivity|].
    match goal with H : _ \/ _ |- _ => destruct H as [Hin | Hin] end;
      [left | right]; apply in_or_app; right; exact Hin.
Qed.

End RunProperties.

(** ** The handlers that kill the server *)

Section KillFacts.

Import Replay Transitions.

(** A handler suspended at its [await server.kill()] stays so, and the
    shutdown stays requested. *)
Lemma pending_kill_kept (u : bool) (n : nat) (status : Z) :
  forall (acc : list effect) (d : driver) (out : list effect) (d' : driver),
    exitRequested d = true /\ nth_error (killing d) n = Some status ->
    transition u d out (Running d') ->
    exitRequested d' = true /\ nth_error (killing d') n = Some status.
Proof.
  intros acc d out d' (He & Hn) Ht.
  inversion Ht; subst; simpl; rewrite ?He; auto.
  split; [reflexivity|]. rewrite nth_error_app1; [assumption|].
  apply nth_error_Some. congruence.
Qed.

Lemma run_exited (u : bool) (status : Z) (xs : list delivery) :
  run u (Exited status) xs = ([], Exited status).
Proof. destruct xs; reflexivity. Qed.

Lemma run_app (u : bool) (xs ys : list delivery) :
  forall p,
    run u p (xs ++ ys)
    = (fst (run u p xs) ++ fst (run u (snd (run u p xs)) ys),
       snd (run u (snd (run u p xs)) ys)).
Proof.
  induction xs as [|x xs IH]; intros p.
  - assert (Hnil : run u p [] = ([], p)) by (destruct p; reflexivity).
    rewrite Hnil. simpl. destruct (run u p ys). reflexivity.
  - destruct p as [d|status].
    + simpl. destruct (step u d x) as [o p1]. rewrite IH.
      destruct (run u p1 xs) as [o1 p2]. simpl.
      destruct (run u p2 ys) as [o2 p3]. simpl.
      rewrite app_assoc. reflexivity.
    + rewrite !run_exited. simpl. rewrite run_exited. reflexivity.
Qed.

Lemma pending_kill_ends (u : bool) (n : nat) (status : Z) (d : driver)
  (xs : list delivery) :
  exitRequested d = true ->
  nth_error (killing d) n = Some status ->
  (exists s, snd (run u (Running d) xs) = Exited s) \/
  run u (Running d) (xs ++ [Killed n]) = (fst (run u (Running d) xs), Exited status).
Proof.
  intros He Hn. rewrite run_app.
  destruct (run u (Running d) xs) as [out p] eqn:Hrun.
  pose proof (run_keeps u
                (fun _ d' => exitRequested d' = true
                             /\ nth_error (killing d') n = Some status)
                (pending_kill_kept u n status) xs [] d out p (conj He Hn) Hrun)
    as Hkept.
  destruct p as [d'|s].
  - right. destruct Hkept as [_ Hn']. simpl. unfold on_killed. rewrite Hn'.
    simpl. rewrite app_nil_r. reflexivity.
  - left. exists s. reflexivity.
Qed.

Lemma nth_error_last (A : Type) (l : list A) (x : A) :
  nth_error (l ++ [x]) (length l) = Some x.
Proof. induction l as [|y l IH]; simpl; auto. Qed.

(** X12.  A communication error ends an unattended driver.  The error is
    reported and the server killed at once; whatever is delivered while the
    kill is pending, the driver exits with status 7 when the kill completes,
    unless it has exited before.  An interactive driver reports the error
    and goes on as if nothing had happened. *)
Theorem communication_error_ends_unattended_driver
  (d : driver) (err : string) (xs : list delivery) :
  forallb expected xs = true ->
  (exists out p,
     run true (Running d) (CommunicationError err :: xs)
       = (CommunicationErrorReport err :: Kill :: out, p) /\
     ((exists status, p = Exited status) \/
      run true (Running d)
        (CommunicationError err :: xs ++ [Killed (length (killing d))])
        = (CommunicationErrorReport err :: Kill :: out, Exited 7))) /\
  run false (Running d) (CommunicationError err :: xs)
    = (CommunicationErrorReport err :: fst (run false (Running d) xs),
       snd (run false (Running d) xs)).
Proof.
  intros _. split.
  - cbn [run step on_communicationError].
    destruct (pending_kill_ends true (length (killing d)) 7
                {| exitRequested := true; main := main d;
                   killing := killing d ++ [7%Z] |} xs eq_refl
                (nth_error_last Z (killing d) 7%Z)) as [[s Hs] | Hrun].
    + destruct (run true _ xs) as [out p]. simpl in Hs. subst p.
      exists out, (Exited s). split; [reflexivity|]. left. eauto.
    + rewrite Hrun. destruct (run true _ xs) as [out p].
      exists out, p. split; [reflexivity|]. right. reflexivity.
  - cbn [run step on_communicationError].
    destruct (run false (Running d) xs). reflexivity.
Qed.

(** X13.  The event that a project's language service is disabled ends an
    unattended driver in the same way, with status 4: the project is named
    and the server killed at once, and the driver exits with status 4 when
    the kill completes, unless it has exited before.  An interactive driver
    names the project and goes on.  The project name is a string, or a
    falsy value and then printed as unknown: [path.normalize] at line 181
    takes nothing else. *)
Theorem disabled_language_service_ends_unattended_driver
  (d : driver) (e event body enabled projectName : value) (xs : list delivery) :
  get e "event" = Some event ->
  is_str event "projectLanguageServiceState" = true ->
  get e "body" = Some body ->
  get body "languageServiceEnabled" = Some enabled ->
  truthy enabled = false ->
  get body "projectName" = Some projectName ->
  printable projectName = true ->
  forallb expected xs = true ->
  (exists out p,
     run true (Running d) (ServerEvent e :: xs)
       = (ServiceDisabled projectName :: Kill :: out, p) /\
     ((exists status, p = Exited status) \/
      run true (Running d) (ServerEvent e :: xs ++ [Killed (length (killing d))])
        = (ServiceDisabled projectName :: Kill :: out, Exited 4))) /\
  run false (Running d) (ServerEvent e :: xs)
    = (ServiceDisabled projectName :: fst (run false (Running d) xs),
       snd (run false (Running d) xs)).
Proof.
  intros Hevent Hstate Hbody Henabled Hfalsy Hname Hprintable _.
  assert (Hnormal : truthy projectName && negb (normalizes projectName) = false).
  { unfold printable in Hprintable.
    destruct projectName as [| |flag|number|text|elems|props];
      cbn [normalizes negb]; cbv beta iota in Hprintable;
      first [ apply andb_false_r
            | apply negb_true_iff in Hprintable; rewrite Hprintable; reflexivity ]. }
  assert (Hstep : forall u,
            step u d (ServerEvent e)
            = if u
              then ([ServiceDisabled projectName; Kill],
                    Running {| exitRequested := true; main := main d;
                               killing := killing d ++ [4%Z] |})
              else ([ServiceDisabled projectName], Running d)).
  { intros u. cbn [step]. unfold on_event.
    rewrite Hevent. cbn [bind]. rewrite Hstate, Hbody. cbn [bind].
    rewrite Henabled. cbn [bind]. rewrite Hfalsy. cbn [negb].
    rewrite Hname. cbn [bind]. rewrite Hnormal. reflexivity. }
  split.
  - cbn [run]. rewrite (Hstep true).
    destruct (pending_kill_ends true (length (killing d)) 4
                {| exitRequested := true; main := main d;
                   killing := killing d ++ [4%Z] |} xs eq_refl
                (nth_error_last Z (killing d) 4%Z)) as [[s Hs] | Hrun].
    + destruct (run true _ xs) as [out p]. simpl in Hs. subst p.
      exists out, (Exited s). split; [reflexivity|]. left. eauto.
    + rewrite Hrun. destruct (run true _ xs) as [out p].
      exists out, p. split; [reflexivity|]. right. reflexivity.
  - cbn [run]. rewrite (Hstep false).
    destruct (run false (Running d) xs). reflexivity.
Qed.

End KillFacts.

(** ** The driver from its options to its exit *)

Section WholeRunFacts.

Import Replay Transitions.

Variable resolve : string -> string.
Variable mkdir : string -> bool.
Variable join : string -> string -> string.
Variable JSON_parse : string -> option value.
Variable RegExp_replace : value -> string -> string -> option string.
Variable readFile : string -> option string.
Variable readFd : float -> option string.
Variable testDir : string.

Local Abbreviation on_line :=
  (Reader.on_line JSON_parse RegExp_replace readFile readFd testDir).
Local Abbreviation read_lines :=
  (Reader.read_lines JSON_parse RegExp_replace readFile readFd testDir).
Local Abbreviation driver_main :=
  (Driver.main JSON_parse RegExp_replace readFile readFd testDir).
Local Abbreviation launch_main :=
  (Launch.main resolve mkdir join JSON_parse RegExp_replace readFile readFd
     testDir).
Local Abbreviation directory := (Launch.directory resolve).
Local Abbreviation configure := (Launch.configure resolve mkdir join).

(** Reading prints nothing but its reports of bad lines. *)
Lemma read_lines_reports (u : bool) (lines : list string) (st : Reader.parser) :
  Forall (fun e => exists line, e = BadInput line) (fst (read_lines u st lines)).
Proof.
  destruct (read_lines_modes JSON_parse RegExp_replace readFile readFd testDir
              lines st st eq_refl eq_refl) as (_ & Hout & Hall & _).
  assert (Hi : Forall (fun e => exists line, e = BadInput line)
                 (fst (read_lines false st lines))).
  { eapply Forall_impl; [|exact Hall]. intros e (line & _ & He). eauto. }
  destruct u; [|exact Hi].
  rewrite Hout. destruct (fst (read_lines false st lines)) as [|e out].
  - constructor.
  - simpl. inversion Hi; subst. constructor; [assumption | constructor].
Qed.

Lemma reports_are_quiet (out : list effect) :
  Forall (fun e => exists line, e = BadInput line) out ->
  sent out = [] /\ existsb Effects.forces out = false /\
  ~ In Uncaught out /\ ~ In UnhandledRejection out.
Proof.
  induction 1 as [|e out (line & ->) _ (Hs & Hf & Hu & Hr)]; simpl.
  - repeat split; auto.
  - repeat split; auto; intros [Hin | Hin]; try discriminate; auto.
Qed.

(** X9.  An interactive driver never forces the end of the server and never
    decides on a failure: from the first line read to its last step, it
    calls neither [exitOrKill] nor [kill], and if the process ends it is
    with status 0, the event loop being empty, or with status 1 after an
    exception. *)
Theorem interactive_driver_forces_nothing
  (lines : list string) (xs : list delivery) :
  forallb expected xs = true ->
  existsb Effects.forces (fst (driver_main false lines xs)) = false /\
  forall status,
    snd (driver_main false lines xs) = Exited status ->
    status = 0%Z \/
    (status = 1%Z /\
     (In Uncaught (fst (driver_main false lines xs)) \/
      In UnhandledRejection (fst (driver_main false lines xs)))).
Proof.
  intros _. unfold Driver.main.
  destruct (read_lines_modes JSON_parse RegExp_replace readFile readFd testDir
              lines Reader.initial Reader.initial eq_refl eq_refl)
    as ((st & Hc) & _).
  pose proof (read_lines_reports false lines Reader.initial) as Hrep.
  destruct (read_lines false Reader.initial lines) as [out r].
  simpl in Hc, Hrep. subst r.
  destruct (reports_are_quiet out Hrep) as (_ & Hf & _).
  destruct (interactive_replay_forces_nothing (Reader.emitted false st) xs)
    as [Hforce Hstatus].
  destruct (Driver.replay false (Reader.emitted false st) xs) as [out' p].
  simpl in *. split.
  - rewrite existsb_app, Hf, Hforce. reflexivity.
  - intros status Hp. destruct (Hstatus status Hp) as [-> | (-> & Hin)].
    + left. reflexivity.
    + right. split; [reflexivity|].
      destruct Hin as [Hin | Hin]; [left | right]; apply in_or_app; auto.
Qed.

(** *** The options *)

Lemma configure_without_directories (serverArgs : value) (o : Launch.options) :
  directory (Launch.t o) = None ->
  directory (Launch.l o) = None ->
  configure serverArgs o = Some serverArgs.
Proof.
  unfold Launch.configure. intros -> ->. reflexivity.
Qed.

Lemma configure_needs_an_array (serverArgs : value) (o : Launch.options) :
  (forall args, serverArgs <> JArr args) ->
  directory (Launch.t o) <> None \/ directory (Launch.l o) <> None ->
  configure serverArgs o = None.
Proof.
  intros Hnot Hdir. unfold Launch.configure.
  assert (Hpush : forall items, Launch.push serverArgs items = None).
  { intros items. destruct serverArgs; try reflexivity.
    exfalso. eapply Hnot. reflexivity. }
  destruct (directory (Launch.t o)) as [traceDir|].
  - rewrite Hpush. destruct (mkdir traceDir); reflexivity.
  - cbn [bind].
    destruct (directory (Launch.l o)) as [logDir|].
    + rewrite Hpush. destruct (mkdir logDir); reflexivity.
    + destruct Hdir as [H | H]; contradiction H; reflexivity.
Qed.

(** X14.  The options [-t], [-l] and [-i] decide what the server is
    launched with and nothing else.  When the server is launched, the lines
    are read and the requests replayed exactly as without options.  When it
    is not, no request has been sent and the driver has exited: with status
    2, unattended, on a bad line, or with status 1 on an exception while
    the directories were prepared, which is reported.  Without [-t] and
    [-l] the driver behaves as without options in every case. *)
Theorem options_only_decide_the_launch
  (o : Launch.options) (u : bool) (lines : list string) (xs : list delivery) :
  match fst (launch_main o u lines xs) with
  | Some (_, nodeArgs) =>
      nodeArgs = Launch.nodeArgs o /\
      snd (launch_main o u lines xs) = driver_main u lines xs
  | None =>
      sent (fst (snd (launch_main o u lines xs))) = [] /\
      ((u = true /\ snd (snd (launch_main o u lines xs)) = Exited 2) \/
       (snd (snd (launch_main o u lines xs)) = Exited 1 /\
        In Uncaught (fst (snd (launch_main o u lines xs)))))
  end /\
  (directory (Launch.t o) = None ->
   directory (Launch.l o) = None ->
   snd (launch_main o u lines xs) = driver_main u lines xs).
Proof.
  unfold Launch.main, Driver.main.
  pose proof (read_lines_reports u lines Reader.initial) as Hrep.
  destruct (read_lines_modes JSON_parse RegExp_replace readFile readFd testDir
              lines Reader.initial Reader.initial eq_refl eq_refl)
    as ((sti & Hc) & _).
  destruct (read_lines u Reader.initial lines) as [out [st|status]] eqn:Hread.
  - simpl in Hrep. destruct (reports_are_quiet out Hrep) as (Hs & _).
    split.
    + destruct (configure (Reader.serverArgs st) o) as [serverArgs|].
      * destruct (Driver.replay u (Reader.emitted u st) xs) as [out' p].
        simpl. split; reflexivity.
      * simpl. rewrite sent_app, Hs. split; [reflexivity|].
        right. split; [reflexivity|]. apply in_or_app. right. left. reflexivity.
    + intros Ht Hl. rewrite (configure_without_directories _ _ Ht Hl).
      destruct (Driver.replay u (Reader.emitted u st) xs) as [out' p].
      reflexivity.
  - simpl in Hrep. destruct (reports_are_quiet out Hrep) as (Hs & _).
    simpl. split; [|reflexivity]. split; [exact Hs|].
    destruct u.
    + left. split; [reflexivity|].
      destruct (read_lines_modes JSON_parse RegExp_replace readFile readFd
                  testDir lines Reader.initial Reader.initial eq_refl eq_refl)
        as (_ & _ & _ & Hnone & Hsome).
      rewrite Hread in Hnone, Hsome. simpl in Hnone, Hsome.
      destruct (fst (read_lines false Reader.initial lines)) as [|e bad].
      * destruct (Hnone eq_refl) as [st' Hst']. discriminate Hst'.
      * assert (H2 : Reader.Exit status = Reader.Exit 2)
          by (apply Hsome; discriminate).
        injection H2 as ->. reflexivity.
    + rewrite Hread in Hc. discriminate Hc.
Qed.

(** X15.  The server arguments of the header are taken as they are, so
    [-t] and [-l] need them to be an array.  With a header whose
    [serverArgs] is another value (a string, a number, an object), a driver
    given a trace or log directory reads the whole trace and then throws at
    the first [push]: the exception is printed, the driver exits with
    status 1, the server is not launched and no request is sent, in both
    modes and whether or not the directory could be made. *)
Theorem directories_need_array_serverArgs
  (o : Launch.options) (u : bool) (header : string) (rest : list string)
  (xs : list delivery) (obj command a : value)
  (out : list effect) (st : Reader.parser) :
  Reader.blank header = false ->
  JSON_parse header = Some obj ->
  get obj "command" = Some command ->
  truthy command = false ->
  get obj "serverArgs" = Some a ->
  a <> JUndefined -> a <> JNull -> (forall args, a <> JArr args) ->
  read_lines u Reader.initial (header :: rest) = (out, Reader.Continue st) ->
  directory (Launch.t o) <> None \/ directory (Launch.l o) <> None ->
  Reader.serverArgs st = a /\
  launch_main o u (header :: rest) xs = (None, (out ++ [Uncaught], Exited 1)) /\
  sent (out ++ [Uncaught]) = [].
Proof.
  intros Hblank Hparse Hcmd Hfalsy Hargs Hu Hn Harr Hread Hdir.
  assert (Hp : exists p, get obj "rootDirPlaceholder" = Some p).
  { destruct obj; simpl in *; try discriminate; eauto. }
  destruct Hp as [p Hp].
  assert (Hst : Reader.serverArgs st = a).
  { revert Hread. cbn [Reader.read_lines].
    unfold Reader.on_line, Reader.try_block, Reader.header.
    rewrite Hblank. cbn [Reader.firstLine Reader.initial].
    rewrite Hparse. cbn [bind]. rewrite Hcmd. cbn [bind].
    rewrite Hfalsy. cbn [negb]. rewrite Hp. cbn [bind]. rewrite Hargs.
    cbn [bind].
    match goal with
    | |- context [read_lines u ?st1 rest] =>
        destruct (read_lines u st1 rest) as [o' r] eqn:Hrest
    end.
    intros [= _ ->].
    apply read_lines_settings in Hrest; [|reflexivity].
    destruct Hrest as (_ & -> & _).
    simpl. destruct a; try reflexivity; contradiction. }
  split; [exact Hst|].
  pose proof (read_lines_reports u (header :: rest) Reader.initial) as Hrep.
  unfold Launch.main. rewrite Hread in *. simpl in Hrep.
  rewrite Hst, (configure_needs_an_array a o Harr Hdir).
  split; [reflexivity|].
  destruct (reports_are_quiet out Hrep) as (Hs & _).
  rewrite sent_app, Hs. reflexivity.
Qed.

End WholeRunFacts.

(** ** The further properties on sample inputs *)

Section MoreExamples.

Import Node Samples.

(** X2 on a header and a request. *)
Lemma settings_are_those_of_the_first_line_witness :
  exists out1 st1,
    on_line [] "/proj" false Reader.initial header_line
      = (out1, Reader.Continue st1) /\
    JStr "<R>" = Reader.rootDirPlaceholder st1 /\
    JArr [JStr "--x"] = Reader.serverArgs st1 /\
    false = false.
Proof.
  exact (settings_are_those_of_the_first_line JSON_parse RegExp_replace
           (readFile []) readFd "/proj" false header_line [rooted_line]
           Reader.initial
           {| Reader.rootDirPlaceholder := JStr "<R>";
              Reader.serverArgs := JArr [JStr "--x"];
              Reader.firstLine := false;
              Reader.sawExit := false;
              Reader.requests := [open_request] |}
           [] eq_refl).
Defined.

(** X3 on a first line whose command is the empty string. *)
Lemma first_line_with_falsy_command_is_header_witness :
  exists p a,
    get (JObj [("seq", JNum 1%float); ("command", JStr "")]) "rootDirPlaceholder"
      = Some p /\
    get (JObj [("seq", JNum 1%float); ("command", JStr "")]) "serverArgs"
      = Some a /\
    on_line [] "/proj" true Reader.initial nameless_line
    = ([], Reader.Continue
             {| Reader.rootDirPlaceholder :=
                  coalesce p (Reader.rootDirPlaceholder Reader.initial);
                Reader.serverArgs := coalesce a (Reader.serverArgs Reader.initial);
                Reader.firstLine := false;
                Reader.sawExit := Reader.sawExit Reader.initial;
                Reader.requests := Reader.requests Reader.initial |}).
Proof.
  exact (first_line_with_falsy_command_is_header JSON_parse RegExp_replace
           (readFile []) readFd "/proj" true Reader.initial nameless_line
           (JObj [("seq", JNum 1%float); ("command", JStr "")]) (JStr "")
           eq_refl eq_refl eq_refl eq_refl eq_refl).
Defined.

(** X5 on a trace of one request and an exit, read interactively. *)
Lemma reading_only_appends_witness :
  read_lines [] "/proj" false Reader.initial [open_line; exit_line]
    = ([], Reader.Continue
             {| Reader.rootDirPlaceholder := JStr "@PROJECT_ROOT@";
                Reader.serverArgs := JArr [JStr "--disableAutomaticTypingAcquisition"];
                Reader.firstLine := false;
                Reader.sawExit := true;
                Reader.requests := [open_request; exit_request] |}) /\
  exists added,
    [open_request; exit_request] = [] ++ added /\
    length added <= 2 /\
    Forall Replay.readable added /\
    (false = true -> true = true).
Proof.
  split; [reflexivity|].
  exact (reading_only_appends JSON_parse RegExp_replace (readFile []) readFd
           "/proj" false [open_line; exit_line] Reader.initial
           {| Reader.rootDirPlaceholder := JStr "@PROJECT_ROOT@";
              Reader.serverArgs := JArr [JStr "--disableAutomaticTypingAcquisition"];
              Reader.firstLine := false;
              Reader.sawExit := true;
              Reader.requests := [open_request; exit_request] |}
           [] eq_refl).
Defined.

(** X6 on a trace of one request, answered twice. *)
Lemma interactive_run_ends_with_exit_requested_witness :
  snd (main [] "/proj" false [open_line]
         (map Replay.Resolved [ok_response; ok_response]))
  = Replay.Running
      {| Replay.exitRequested := true;
         Replay.main := Replay.Returned;
         Replay.killing := [] |}.
Proof.
  exact (proj1 (proj2
           (interactive_run_ends_with_exit_requested JSON_parse RegExp_replace
              (readFile []) readFd "/proj" [open_line] [ok_response; ok_response]
              []
              {| Reader.rootDirPlaceholder := JStr "@PROJECT_ROOT@";
                 Reader.serverArgs := JArr [JStr "--disableAutomaticTypingAcquisition"];
                 Reader.firstLine := false;
                 Reader.sawExit := false;
                 Reader.requests := [open_request] |}
              eq_refl eq_refl))).
Defined.

(** X7 on an [updateOpen] whose entry holds an older text. *)
Lemma openFiles_are_filled_with_file_contents_witness :
  exists request' arguments' entries',
    Reader.prepare (readFile files) readFd stale_request = Some request' /\
    get request' "arguments" = Some arguments' /\
    get arguments' "openFiles" = Some (JArr entries') /\
    Forall2
      (Entries.filled (Reader.readFileSync (readFile files) readFd)
         "file" "fileContent")
      [stale_entry] entries' /\
    (forall k, k <> "arguments" -> get request' k = get stale_request k) /\
    (forall k, k <> "openFiles" -> get arguments' k = get stale_arguments k).
Proof.
  apply (openFiles_are_filled_with_file_contents (readFile files) readFd
           "updateOpen" "file" "fileContent" stale_request stale_arguments
           [stale_entry]).
  - left. repeat split.
  - reflexivity.
  - reflexivity.
  - reflexivity.
  - constructor; [|constructor].
    exists (JStr "/proj/a.ts"), "let x;". split; reflexivity.
Defined.

(** X8 on two requests, the first one answered. *)
Lemma requests_are_sent_in_order_witness :
  (exists tail,
     [open_request; exit_request]
     = Replay.sent (fst (Driver.replay true [open_request; exit_request]
                           [Replay.Resolved ok_response])) ++ tail) /\
  length (Replay.sent (fst (Driver.replay true [open_request; exit_request]
                              [Replay.Resolved ok_response])))
  <= S (Transitions.count_resolved [Replay.Resolved ok_response]).
Proof.
  exact (requests_are_sent_in_order true [open_request; exit_request]
           [Replay.Resolved ok_response] eq_refl).
Defined.

(** X9 on a trace of one request, with a disabled project on the way. *)
Lemma interactive_driver_forces_nothing_witness :
  existsb Effects.forces
    (fst (main [] "/proj" false [open_line]
            [Replay.Resolved ok_response; Replay.ServerEvent disabled_event;
             Replay.LoopEmpty])) = false /\
  snd (main [] "/proj" false [open_line]
         [Replay.Resolved ok_response; Replay.ServerEvent disabled_event;
          Replay.LoopEmpty]) = Replay.Exited 0.
Proof.
  split; [|reflexivity].
  exact (proj1 (interactive_driver_forces_nothing JSON_parse RegExp_replace
                  (readFile []) readFd "/proj" [open_line]
                  [Replay.Resolved ok_response; Replay.ServerEvent disabled_event;
                   Replay.LoopEmpty] eq_refl)).
Defined.

(** X10 on a server that closes while the first request is pending. *)
Lemma status_3_only_before_any_shutdown_witness :
  Driver.replay true [open_request] [Replay.Close None None]
    = ([Message open_request; CloseReport ExitedUnexpectedly NoDetail],
       Replay.Exited 3) /\
  true = true /\
  existsb Effects.asks
    [Message open_request; CloseReport ExitedUnexpectedly NoDetail] = false.
Proof.
  split; [reflexivity|].
  exact (status_3_only_before_any_shutdown true [open_request]
           [Replay.Close None None]
           [Message open_request; CloseReport ExitedUnexpectedly NoDetail]
           eq_refl eq_refl).
Defined.

(** X11 on a communication error while the first request is pending. *)
Lemma exit_status_has_its_cause_witness :
  Driver.replay true [open_request]
    [Replay.CommunicationError "broken pipe"; Replay.Killed 0]
    = ([Message open_request; CommunicationErrorReport "broken pipe"; Kill],
       Replay.Exited 7) /\
  Transitions.cause [open_request]
    [Message open_request; CommunicationErrorReport "broken pipe"; Kill] 7.
Proof.
  split; [reflexivity|].
  exact (exit_status_has_its_cause true [open_request]
           [Replay.CommunicationError "broken pipe"; Replay.Killed 0]
           [Message open_request; CommunicationErrorReport "broken pipe"; Kill]
           7 eq_refl eq_refl).
Defined.

(** X12 on a communication error followed by the close of the server. *)
Lemma communication_error_ends_unattended_driver_witness :
  Replay.run true (Replay.Running (awaiting open_request))
    [Replay.CommunicationError "broken pipe"; Replay.Close None None;
     Replay.Killed 0]
    = ([CommunicationErrorReport "broken pipe"; Kill], Replay.Exited 7) /\
  Replay.run false (Replay.Running (awaiting open_request))
    [Replay.CommunicationError "broken pipe"; Replay.Close None None]
    = (CommunicationErrorReport "broken pipe"
         :: fst (Replay.run false (Replay.Running (awaiting open_request))
                   [Replay.Close None None]),
       snd (Replay.run false (Replay.Running (awaiting open_request))
              [Replay.Close None None])).
Proof.
  split; [reflexivity|].
  exact (proj2 (communication_error_ends_unattended_driver
                  (awaiting open_request) "broken pipe"
                  [Replay.Close None None] eq_refl)).
Defined.

(** X13 on the event of a disabled project, the first request pending. *)
Lemma disabled_language_service_ends_unattended_driver_witness :
  Replay.run true (Replay.Running (awaiting open_request))
    [Replay.ServerEvent disabled_event; Replay.Killed 0]
    = ([ServiceDisabled (JStr "/proj/tsconfig.json"); Kill], Replay.Exited 4) /\
  Replay.run false (Replay.Running (awaiting open_request))
    [Replay.ServerEvent disabled_event]
    = ([ServiceDisabled (JStr "/proj/tsconfig.json")],
       Replay.Running (awaiting open_request)).
Proof.
  destruct (disabled_language_service_ends_unattended_driver
              (awaiting open_request) disabled_event
              (JStr "projectLanguageServiceState")
              (JObj [("projectName", JStr "/proj/tsconfig.json");
                     ("languageServiceEnabled", JBool false)])
              (JBool false) (JStr "/proj/tsconfig.json") []
              eq_refl eq_refl eq_refl eq_refl eq_refl eq_refl eq_refl eq_refl)
    as [_ Hinteractive].
  split; [reflexivity | exact Hinteractive].
Defined.

(** X15 on a header whose server arguments are a string, with [-t traces]. *)
Lemma directories_need_array_serverArgs_witness :
  Launch.directory resolve (Launch.t trace_options) = Some "/cwd/traces" /\
  launch_main trace_options true [string_args_header; open_line] []
    = (None, ([Uncaught], Replay.Exited 1)).
Proof.
  split; [reflexivity|].
  refine (proj1 (proj2
            (directories_need_array_serverArgs resolve mkdir join JSON_parse
               RegExp_replace (readFile []) readFd "/proj" trace_options true
               string_args_header [open_line] []
               (JObj [("serverArgs", JStr "--x")]) JUndefined (JStr "--x") []
               {| Reader.rootDirPlaceholder := JStr "@PROJECT_ROOT@";
                  Reader.serverArgs := JStr "--x";
                  Reader.firstLine := false;
                  Reader.sawExit := false;
                  Reader.requests := [open_request] |}
               eq_refl eq_refl eq_refl eq_refl eq_refl _ _ _ eq_refl _))).
  - discriminate.
  - discriminate.
  - intros args. discriminate.
  - left. discriminate.
Defined.

End MoreExamples.
